(** * mifi-gps: a shallow embedding of [main.go] and its properties

    The program reads NMEA sentences from a MiFi hotspot, keeps the latest
    sentence of each kind in a shared [MifiNMEAData] value, queues a location
    record every fifteen minutes and pushes the queue to Postgres every five.

    The embedding is sequential: each closure of [main] is a function from
    the state before a call to the state after it, and the interleaving of
    the goroutines is left out ([parseGPS] and [queueLocation] run under the
    data mutex, [pushToDB] takes no lock).  What the program imports (package
    [nmea], [fmt]'s float verb, [database/sql], the network connection) is an
    interface here; the parser of package [time] is embedded for the one
    layout the program passes to it. *)

From Stdlib Require Import ZArith Lia Ascii.
From Stdlib.Strings Require Import Byte.
From Stdlib Require String.
From stdpp Require Import base option list strings gmap.

Local Open Scope Z_scope.

(** ** Results of calls that can fail

    A Go call returning [(T, error)] is a [result]; [x ← call; rest] is the
    usual "return the error at once" sequence of the source. *)

Inductive result (E A : Type) : Type :=
  | Ok (a : A)
  | Err (e : E).
Arguments Ok {E A} a.
Arguments Err {E A} e.

#[global] Instance result_bind {E} : MBind (result E) := λ A B f r,
  match r with Ok a => f a | Err e => Err e end.

(** ** Package [time], for the layout ["02/01/06T15:04:05.9999"]

    The helpers follow [time/format.go] of the Go distribution (1.17 and
    later, where a comma also introduces a fractional second).  All numbers
    here have at most nine digits, far from the range of [int]. *)

Module time.

Record Time : Type := Date {
  Year : Z; Month : Z; Day : Z;
  Hour : Z; Minute : Z; Second : Z; Nanosecond : Z
}.

(** The value of a decimal digit, if the byte is one. *)
Definition digit (c : ascii) : option Z :=
  let n := Z.of_N (N_of_ascii c) in
  if (48 <=? n) && (n <=? 57) then Some (n - 48) else None.

(** [getnum]: one or two digits; [fixed] demands two. *)
Definition getnum (s : string) (fixed : bool) : option (Z * string) :=
  match s with
  | String c0 rest =>
      match digit c0 with
      | None => None
      | Some d0 =>
          match rest with
          | String c1 rest' =>
              match digit c1 with
              | Some d1 => Some (d0 * 10 + d1, rest')
              | None => if fixed then None else Some (d0, rest)
              end
          | EmptyString => if fixed then None else Some (d0, rest)
          end
      end
  | EmptyString => None
  end.

(** [leadingInt]: the longest prefix of digits and its value. *)
Fixpoint leadingInt (acc : Z) (s : string) : Z * string :=
  match s with
  | String c rest =>
      match digit c with
      | Some d => leadingInt (acc * 10 + d) rest
      | None => (acc, s)
      end
  | EmptyString => (acc, s)
  end.

(** [atoi]: an optional sign, then digits up to the end of the string. *)
Definition atoi (s : string) : option Z :=
  let '(neg, s') :=
    match s with
    | String "-" rest => (true, rest)
    | String "+" rest => (false, rest)
    | _ => (false, s)
    end in
  match leadingInt 0 s' with
  | (x, EmptyString) => Some (if neg then - x else x)
  | _ => None
  end.

(** [skip] for a one-byte literal that is not a space. *)
Definition skip (value : string) (prefix : ascii) : option string :=
  match value with
  | String c rest => if bool_decide (c = prefix) then Some rest else None
  | EmptyString => None
  end.

Definition commaOrPeriod (c : ascii) : bool :=
  bool_decide (c = "."%char) || bool_decide (c = ","%char).

(** Number of digits that follow the separator of a fractional second. *)
Fixpoint digitsLen (s : string) : nat :=
  match s with
  | String c rest => if bool_decide (is_Some (digit c)) then S (digitsLen rest) else O
  | EmptyString => O
  end.

Definition string_take (n : nat) (s : string) : string := String.substring 0 n s.
Definition string_drop (n : nat) (s : string) : string :=
  String.substring n (String.length s - n) s.

(** [parseNanoseconds value nbytes]: [value] starts with the separator and
    [nbytes] counts it; at most nine digits are read, then scaled. *)
Definition parseNanoseconds (value : string) (nbytes : nat) : option Z :=
  match value with
  | String c _ =>
      if commaOrPeriod c then
        let nbytes' := Nat.min nbytes 10 in
        match atoi (String.substring 1 (nbytes' - 1) value) with
        | Some ns => Some (ns * 10 ^ Z.of_nat (10 - nbytes'))
        | None => None
        end
      else None
  | EmptyString => None
  end.

(** [stdFracSecond9]: the fraction may be absent; when present every digit
    that follows is consumed. *)
Definition fracSecond9 (value : string) : option (Z * string) :=
  match value with
  | String c0 (String c1 _ as rest) =>
      if commaOrPeriod c0 && bool_decide (is_Some (digit c1)) then
        let i := digitsLen rest in
        match parseNanoseconds value (1 + i) with
        | Some ns => Some (ns, string_drop (1 + i) value)
        | None => None
        end
      else Some (0, value)
  | _ => Some (0, value)
  end.

Definition isLeap (year : Z) : bool :=
  (year mod 4 =? 0) && (negb (year mod 100 =? 0) || (year mod 400 =? 0)).

Definition daysIn (m year : Z) : Z :=
  if m =? 2 then (if isLeap year then 29 else 28)
  else if (m =? 4) || (m =? 6) || (m =? 9) || (m =? 11) then 30
  else 31.

Inductive ParseError : Type :=
  | errBad (elem : string)
  | outOfRange (what : string)
  | extraText (rest : string).

Definition num (elem : string) (r : option (Z * string)) : result ParseError (Z * string) :=
  match r with Some p => Ok p | None => Err (errBad elem) end.

Definition lit (value : string) (c : ascii) : result ParseError string :=
  match skip value c with
  | Some v => Ok v
  | None => Err (errBad (String c EmptyString))
  end.

Definition inRange (what : string) (lo x hi : Z) : result ParseError unit :=
  if (x <? lo) || (hi <? x) then Err (outOfRange what) else Ok tt.

(** [Parse("02/01/06T15:04:05.9999", value)]: the chunks of the layout are
    [stdZeroDay], ["/"], [stdZeroMonth], ["/"], [stdYear], ["T"],
    [stdHour], [":"], [stdZeroMinute], [":"], [stdZeroSecond] and
    [stdFracSecond9], read in this order; the day is checked against the
    month once everything is read.  The result is in UTC. *)
Definition Parse (value : string) : result ParseError Time :=
  '(day, value) ← num "02" (getnum value true);
  value ← lit value "/";
  '(month, value) ← num "01" (getnum value true);
  _ ← inRange "month" 1 month 12;
  value ← lit value "/";
  year ← (if (String.length value <? 2)%nat then Err (errBad "06")
          else match atoi (string_take 2 value) with
               | Some yy => Ok (if 69 <=? yy then yy + 1900 else yy + 2000)
               | None => Err (errBad "06")
               end);
  let value := string_drop 2 value in
  value ← lit value "T";
  '(hour, value) ← num "15" (getnum value false);
  _ ← inRange "hour" 0 hour 23;
  value ← lit value ":";
  '(min, value) ← num "04" (getnum value true);
  _ ← inRange "minute" 0 min 59;
  value ← lit value ":";
  '(sec, value) ← num "05" (getnum value true);
  _ ← inRange "second" 0 sec 59;
  '(nsec, value) ← num ".9999" (fracSecond9 value);
  if negb (bool_decide (value = EmptyString)) then Err (extraText value)
  else if (day <? 1) || (daysIn month year <? day) then Err (outOfRange "day")
  else Ok (Date year month day hour min sec nsec).

End time.

(** ** Go errors *)

(** [ErrNoDataToLog] and [io_EOF] are the two sentinel values the program
    compares against with [errors.Is]; Go compares them by identity, so they
    are constructors of their own and not messages.  [errors_New] is an error
    that carries a message only (also one made by a library, or by
    [fmt.Errorf] without [%w]); [fmt_Errorf] wraps its cause with [%w]. *)
Inductive error : Type :=
  | ErrNoDataToLog
  | io_EOF
  | time_ParseError (e : time.ParseError)
  | errors_New (msg : string)
  | fmt_Errorf (format : string) (err : error).

(** [errors.Is] for a sentinel target: walks the chain of wrapped errors.  An
    error made by [errors.New] is a fresh value and equal to no sentinel. *)
Fixpoint errors_Is (err target : error) : bool :=
  match err, target with
  | ErrNoDataToLog, ErrNoDataToLog => true
  | io_EOF, io_EOF => true
  | fmt_Errorf _ inner, _ => errors_Is inner target
  | _, _ => false
  end.

(** ** What the program imports

    Package [nmea] supplies the sentence types and their [String] methods,
    package [fmt] the [%f] verb.  [float64] stays abstract: the program only
    stores and prints such values. *)

Class Extern : Type := {
  float64 : Type;
  nmea_Date : Type;
  nmea_Time : Type;
  nmea_GSA : Type;
  nmea_GSV : Type;
  nmea_VTG : Type;
  Date_String : nmea_Date → string;
  Time_String : nmea_Time → string;
  Sprintf_f : float64 → string
}.

Section Program.
Context `{Extern}.

(** *** Sentences (the fields of [nmea.RMC] and [nmea.GGA] the program and
    its status page read) *)

Record nmea_RMC : Type := {
  RMC_Time : nmea_Time;
  RMC_Latitude : float64;
  RMC_Longitude : float64;
  RMC_Speed : float64;
  RMC_Course : float64;
  RMC_Date : nmea_Date
}.

Record nmea_GGA : Type := {
  GGA_Time : nmea_Time;
  GGA_Latitude : float64;
  GGA_Longitude : float64;
  GGA_FixQuality : string;
  GGA_Altitude : float64
}.

(** [nmea.Sentence], by dynamic type.  Package [nmea] gives a sentence of
    Go type [nmea.RMC] the data type ["RMC"] and so on, so the switch on
    [DataType()] followed by a type assertion is a match on the
    constructor; [Other] stands for every data type the switch has no case
    for. *)
Inductive Sentence : Type :=
  | TypeRMC (m : nmea_RMC)
  | TypeGGA (m : nmea_GGA)
  | TypeGSA (m : nmea_GSA)
  | TypeGSV (m : nmea_GSV)
  | TypeVTG (m : nmea_VTG)
  | Other (dataType : string).

(** *** [MifiNMEAData]: a nil pointer is [None].  The mutex has no field
    here: every operation below is one critical section. *)
Record MifiNMEAData : Type := {
  RMC : option nmea_RMC;
  GGA : option nmea_GGA;
  GSA : option nmea_GSA;
  GSV : option nmea_GSV;
  VTG : option nmea_VTG
}.

(** [data := MifiNMEAData{}] *)
Definition zeroData : MifiNMEAData :=
  {| RMC := None; GGA := None; GSA := None; GSV := None; VTG := None |}.

Definition Clear (d : MifiNMEAData) : MifiNMEAData :=
  let d := {| RMC := None; GGA := GGA d; GSA := GSA d; GSV := GSV d; VTG := VTG d |} in
  let d := {| RMC := RMC d; GGA := None; GSA := GSA d; GSV := GSV d; VTG := VTG d |} in
  let d := {| RMC := RMC d; GGA := GGA d; GSA := None; GSV := GSV d; VTG := VTG d |} in
  let d := {| RMC := RMC d; GGA := GGA d; GSA := GSA d; GSV := None; VTG := VTG d |} in
  {| RMC := RMC d; GGA := GGA d; GSA := GSA d; GSV := GSV d; VTG := None |}.

(** *** The queue *)

(** [args []interface{}] holds times, strings and floats. *)
Inductive arg : Type :=
  | arg_Time (t : time.Time)
  | arg_string (s : string)
  | arg_float64 (f : float64).

Record queuedOp : Type := {
  query : string;
  args : list arg
}.

Definition max (a b : Z) : Z := if a >? b then a else b.

(** [q[:n]] for [0 <= n <= len(q)]. *)
Definition slice_to {A} (q : list A) (n : Z) : list A := take (Z.to_nat n) q.

Definition len {A} (q : list A) : Z := Z.of_nat (length q).

Definition insertQuery : string :=
  "INSERT INTO gps_logs(logged_at, gps_timestamp, gps_geometry, gps_speed, gps_course) VALUES($1, $2, ST_GeographyFromText($3), $4, $5)".

(** [fmt.Sprintf("SRID=4326;POINTZ(%f %f %f)", x, y, z)] *)
Definition pointZ (x y z : float64) : string :=
  "SRID=4326;POINTZ(" +:+ Sprintf_f x +:+ " " +:+ Sprintf_f y +:+ " " +:+ Sprintf_f z +:+ ")".

(** [queueLocation]; [now] is what [time.Now()] answers during the call.
    The result is the returned error ([None] for nil) and the queue after
    the call. *)
Definition queueLocation (data : MifiNMEAData) (now : time.Time)
    (queue : list queuedOp) : option error * list queuedOp :=
  match RMC data, GGA data with
  | Some rmc, Some gga =>
      match time.Parse (Date_String (RMC_Date rmc) +:+ "T" +:+ Time_String (RMC_Time rmc)) with
      | Err err =>
          (Some (fmt_Errorf "failed to parse RMC date time: %w" (time_ParseError err)), queue)
      | Ok t =>
          let queue := queue ++ [ {|
            query := insertQuery;
            args := [ arg_Time now;
                      arg_Time t;
                      arg_string (pointZ (RMC_Longitude rmc) (RMC_Latitude rmc) (GGA_Altitude gga));
                      arg_float64 (RMC_Speed rmc);
                      arg_float64 (RMC_Course rmc) ] |} ] in
          let queue := slice_to queue (max (len queue - 100) (len queue)) in
          (None, queue)
      end
  | _, _ => (Some ErrNoDataToLog, queue)
  end.

(** *** The flusher

    [database/sql] is seen through what it answers during one call of
    [pushToDB]: [Exec_err n op] is the answer to the [n]-th [tx.Exec] of
    the transaction (counting from 0), [None] standing for a nil error.
    The table is the list of the statements whose rows are committed. *)
Record sqlDB : Type := {
  Begin_err : option error;
  Exec_err : nat → queuedOp → option error;
  Commit_err : option error
}.

Record pushed : Type := {
  push_err : option error;        (* the returned error *)
  push_queue : list queuedOp;     (* the queue after the call *)
  push_rows : list queuedOp;      (* the table after the call *)
  push_execs : list queuedOp      (* the statements passed to [tx.Exec], in call order *)
}.

(** The [for len(queue) != 0] loop; [execs] are the statements executed in
    the transaction so far.  The answer is the error that ended the loop,
    the queue and the statements passed to [tx.Exec]. *)
Fixpoint execLoop (db : sqlDB) (execs queue : list queuedOp)
    : option error * list queuedOp * list queuedOp :=
  match queue with
  | [] => (None, queue, execs)
  | op :: rest =>
      match Exec_err db (length execs) op with
      | Some err => (Some (fmt_Errorf "failed to insert to DB: %w" err), queue, execs ++ [op])
      | None => execLoop db (execs ++ [op]) rest
      end
  end.

(** [pushToDB]: a transaction that is not committed leaves the table as it
    was. *)
Definition pushToDB (db : sqlDB) (rows queue : list queuedOp) : pushed :=
  match Begin_err db with
  | Some err =>
      {| push_err := Some (fmt_Errorf "failed to start db txn: %w" err);
         push_queue := queue; push_rows := rows; push_execs := [] |}
  | None =>
      match execLoop db [] queue with
      | (Some err, queue, execs) =>
          {| push_err := Some err;
             push_queue := queue; push_rows := rows; push_execs := execs |}
      | (None, queue, execs) =>
          match Commit_err db with
          | Some err =>
              {| push_err := Some (fmt_Errorf "failed to commit db txn: %w" err);
                 push_queue := queue; push_rows := rows; push_execs := execs |}
          | None =>
              {| push_err := None;
                 push_queue := queue; push_rows := rows ++ execs; push_execs := execs |}
          end
      end
  end.

(** *** The stream reader *)

(** [nmea.Parse] *)
Context (nmea_Parse : string → result error Sentence).

(** [parseGPS]: the store after the call and the returned error. *)
Definition parseGPS (data : MifiNMEAData) (line : list byte) : MifiNMEAData * option error :=
  match nmea_Parse (String.string_of_list_byte line) with
  | Err err => (data, Some (fmt_Errorf "failed to parse nmea line: %w" err))
  | Ok s =>
      match s with
      | TypeRMC m =>
          ({| RMC := Some m; GGA := GGA data; GSA := GSA data; GSV := GSV data; VTG := VTG data |}, None)
      | TypeGGA m =>
          ({| RMC := RMC data; GGA := Some m; GSA := GSA data; GSV := GSV data; VTG := VTG data |}, None)
      | TypeGSA m =>
          ({| RMC := RMC data; GGA := GGA data; GSA := Some m; GSV := GSV data; VTG := VTG data |}, None)
      | TypeGSV m =>
          ({| RMC := RMC data; GGA := GGA data; GSA := GSA data; GSV := Some m; VTG := VTG data |}, None)
      | TypeVTG m =>
          ({| RMC := RMC data; GGA := GGA data; GSA := GSA data; GSV := GSV data; VTG := Some m |}, None)
      | Other dataType =>
          (data, Some (errors_New ("unexpected nmea data type: " +:+ dataType)))
      end
  end.

(** [bytes.Trim(s, cutset)] for a cutset of single bytes. *)
Fixpoint trimLeft (cutset : list byte) (s : list byte) : list byte :=
  match s with
  | b :: rest => if existsb (Byte.eqb b) cutset then trimLeft cutset rest else s
  | [] => []
  end.

Definition bytes_Trim (s cutset : list byte) : list byte :=
  reverse (trimLeft cutset (reverse (trimLeft cutset s))).

(** One answer of [reader.ReadLine()]: a line, or an error. *)
Inductive readLine : Type :=
  | Line (line : list byte)
  | ReadError (err : error).

(** The read loop of [getGPS] over the answers the connection will give;
    when they are used up the connection is at its end and [ReadLine]
    answers [io.EOF].  The result is the store, the returned error and the
    answers left unread. *)
Fixpoint readLoop (data : MifiNMEAData) (reads : list readLine)
    : MifiNMEAData * option error * list readLine :=
  match reads with
  | [] => (data, Some (errors_New "reached end of connection to mifi"), [])
  | ReadError err :: rest =>
      if errors_Is err io_EOF
      then (data, Some (errors_New "reached end of connection to mifi"), rest)
      else (data, Some err, rest)
  | Line line :: rest =>
      let line := bytes_Trim line [x00] in
      if bool_decide (String.string_of_list_byte line = "") then readLoop data rest
      else
        match parseGPS data line with
        | (data, Some err) => (data, Some (fmt_Errorf "failed to parse gps line: %w" err), rest)
        | (data, None) => readLoop data rest
        end
  end.

(** What [client.Do(req)] answers: an error, or a response whose body
    gives [reads]. *)
Inductive response : Type :=
  | DoError (err : error)
  | Body (reads : list readLine).

Definition getGPS (data : MifiNMEAData) (res : response)
    : MifiNMEAData * option error * list readLine :=
  match res with
  | DoError err => (data, Some err, [])
  | Body reads => readLoop data reads
  end.

(** One turn of the goroutine around [getGPS]: the store after the turn,
    the error it logged, the answers of the connection it never read and
    the seconds it sleeps before it connects again. *)
Record turn : Type := {
  turn_data : MifiNMEAData;
  turn_logged : option error;
  turn_unread : list readLine;
  turn_sleep : Z
}.

Definition readerTurn (data : MifiNMEAData) (res : response) : turn :=
  match getGPS data res with
  | (data, Some err, unread) =>
      {| turn_data := Clear data; turn_logged := Some err; turn_unread := unread; turn_sleep := 60 |}
  | (data, None, unread) =>
      {| turn_data := data; turn_logged := None; turn_unread := unread; turn_sleep := 60 |}
  end.

End Program.

(** ** Start-up *)

(** [os.Getenv]: the empty string for a variable that is not set. *)
Definition os_Getenv (env : gmap string string) (key : string) : string :=
  default "" (env !! key).

(** How [main] gets past its configuration checks: it panics, or goes on
    with the two settings. *)
Inductive startup : Type :=
  | panic (msg : string)
  | started (connStr mapsAPIKey : string).

Definition main (env : gmap string string) : startup :=
  let connStr := os_Getenv env "MIFI_GPS_DBCONNSTR" in
  if bool_decide (connStr = "") then
    panic "missing db connection string in env var MIFI_GPS_DBCONNSTR"
  else
    let mapsAPIKey := os_Getenv env "MIFI_GPS_MAPSAPIKEY" in
    if bool_decide (connStr = "") then
      panic "missing maps api key in env var MIFI_GPS_MAPSAPIKEY"
    else started connStr mapsAPIKey.

(** ** The connection wrapper *)

(** [net.Conn], as far as [Read] goes: the connection after the call, the
    buffer after the call, the count and the error. *)
Class NetConn : Type := {
  net_Conn : Type;
  Conn_Read : net_Conn → list byte → net_Conn * list byte * Z * option error
}.

Definition CRLF : string := String "013" (String "010" EmptyString).

(** [[]byte("HTTP/1.1 200 OK\r\nConnection: keep-alive\r\nContent-Type: text/plain\r\n\r\n")] *)
Definition response_preamble : list byte :=
  String.list_byte_of_string
    ("HTTP/1.1 200 OK" +:+ CRLF +:+ "Connection: keep-alive" +:+ CRLF +:+
     "Content-Type: text/plain" +:+ CRLF +:+ CRLF).

(** The builtin [copy(dst, src)]: the destination after the call and the
    number of bytes copied. *)
Definition copy (dst src : list byte) : list byte * Z :=
  let n := Nat.min (length dst) (length src) in
  (take n src ++ drop n dst, Z.of_nat n).

Section Wrapper.
Context `{NetConn}.

Record Http0_9ConnWrapper : Type := {
  Conn : net_Conn;
  haveReadAny : bool
}.

(** [Read]: the wrapper and the buffer after the call, the count and the
    error returned. *)
Definition Read (c : Http0_9ConnWrapper) (b : list byte)
    : Http0_9ConnWrapper * list byte * Z * option error :=
  if haveReadAny c then
    let '(conn, b, n, err) := Conn_Read (Conn c) b in
    ({| Conn := conn; haveReadAny := haveReadAny c |}, b, n, err)
  else
    let c := {| Conn := Conn c; haveReadAny := true |} in
    let response := response_preamble in
    let b := fst (copy b response) in
    (c, b, Z.of_nat (length response), None).

End Wrapper.

(** ** Sequences of calls and the words of the specification *)

Section Sequences.
Context `{Extern}.
Context (nmea_Parse : string → result error Sentence).

(** The store after [parseGPS] has been called on each line in turn. *)
Definition feed (data : MifiNMEAData) (lines : list (list byte)) : MifiNMEAData :=
  foldl (λ d line, (parseGPS nmea_Parse d line).1) data lines.

(** The queue after one sampling cycle per clock reading, with no flush in
    between. *)
Definition sample (data : MifiNMEAData) (clock : list time.Time)
    (queue : list queuedOp) : list queuedOp :=
  foldl (λ q now, (queueLocation data now q).2) queue clock.

(** The sentence a line decodes to, if it decodes. *)
Definition decoded (line : list byte) : option Sentence :=
  match nmea_Parse (String.string_of_list_byte line) with
  | Ok s => Some s
  | Err _ => None
  end.

Definition asRMC (s : Sentence) : option nmea_RMC :=
  match s with TypeRMC m => Some m | _ => None end.
Definition asGGA (s : Sentence) : option nmea_GGA :=
  match s with TypeGGA m => Some m | _ => None end.
Definition asGSA (s : Sentence) : option nmea_GSA :=
  match s with TypeGSA m => Some m | _ => None end.
Definition asGSV (s : Sentence) : option nmea_GSV :=
  match s with TypeGSV m => Some m | _ => None end.
Definition asVTG (s : Sentence) : option nmea_VTG :=
  match s with TypeVTG m => Some m | _ => None end.

(** The last update of one variant in a sequence of lines: the value
    carried by the last line that decodes to that variant. *)
Fixpoint lastUpdate {A} (variant : Sentence → option A) (lines : list (list byte)) : option A :=
  match lines with
  | [] => None
  | line :: rest =>
      match lastUpdate variant rest with
      | Some m => Some m
      | None => decoded line ≫= variant
      end
  end.

End Sequences.

(** ** The goroutines around the closures, and what the properties speak of *)

Section Callers.
Context `{Extern}.

(** The lines a turn of the sampling goroutine prints: the one
    [queueLocation] prints itself, and the two of the goroutine. *)
Inductive samplerLog : Type :=
  | queuing_location                 (* "queuing location" *)
  | skipped_no_data                  (* "skipped queuing, no data" *)
  | error_queuing (err : error).     (* "error queuing location: %v" *)

(** What [queueLocation] prints: [log.Print("queuing location")] stands
    behind the guard on the two fragments and before [time.Parse]. *)
Definition queueLocationLog (data : MifiNMEAData) : list samplerLog :=
  match RMC data, GGA data with
  | Some _, Some _ => [queuing_location]
  | _, _ => []
  end.

(** One turn of the sampling goroutine: the queue after the call, the lines
    printed, in order, and the seconds slept before the next turn. *)
Definition samplerTurn (data : MifiNMEAData) (now : time.Time) (queue : list queuedOp)
    : list queuedOp * list samplerLog * Z :=
  match queueLocation data now queue with
  | (Some err, queue) =>
      if errors_Is err ErrNoDataToLog
      then (queue, queueLocationLog data ++ [skipped_no_data], 15 * 60)
      else (queue, queueLocationLog data ++ [error_queuing err], 15 * 60)
  | (None, queue) => (queue, queueLocationLog data, 15 * 60)
  end.

(** The flushing goroutine over a run of turns, one answering database per
    turn, with no sampling in between: the table and the queue after the
    last turn.  The error of a turn is logged and otherwise dropped. *)
Definition flusherTurns (dbs : list sqlDB) (rows queue : list queuedOp)
    : list queuedOp * list queuedOp :=
  foldl (λ '(rows, queue) db,
           let r := pushToDB db rows queue in (push_rows r, push_queue r))
        (rows, queue) dbs.

(** The sentences [parseGPS] has a case for. *)
Definition supported (s : Sentence) : bool :=
  match s with Other _ => false | _ => true end.

(** Whether two sentences are stored in the same field. *)
Definition sameField (s1 s2 : Sentence) : bool :=
  match s1, s2 with
  | TypeRMC _, TypeRMC _ | TypeGGA _, TypeGGA _ | TypeGSA _, TypeGSA _
  | TypeGSV _, TypeGSV _ | TypeVTG _, TypeVTG _ => true
  | _, _ => false
  end.

(** What the read loop hands to [parseGPS] for a line. *)
Definition payload (line : list byte) : list byte := bytes_Trim line [x00].

Definition blank (line : list byte) : Prop :=
  String.string_of_list_byte (payload line) = "".

#[global] Instance blank_dec (line : list byte) : Decision (blank line) :=
  decide (String.string_of_list_byte (payload line) = "").

End Callers.

(** Two decimal digits, as [%02d] prints a number from 0 to 99. *)
Definition Sprintf_02d (n : Z) : string :=
  String (ascii_of_N (Z.to_N (48 + n `div` 10)))
    (String (ascii_of_N (Z.to_N (48 + n `mod` 10))) EmptyString).

(** The century [time.Parse] gives a two-digit year. *)
Definition fullYear (yy : Z) : Z := if 69 <=? yy then yy + 1900 else yy + 2000.

(** ** The first version of the program

    The file without [queueLocation] and [pushToDB]: the logging goroutine
    inserts straight into the database and the read loop has the switch of
    [parseGPS] inline. *)

Module V1.
Section V1.
Context `{Extern}.
Context (nmea_Parse : string → result error Sentence).

(** How one pass through the body of the logging loop ends. *)
Inductive logPass : Type :=
  | retry                               (* [continue]: nothing done, no sleep *)
  | panic_time (err : time.ParseError)  (* [panic(err)] after [time.Parse] *)
  | panic_nil                           (* nil dereference in [data.GGA.Altitude] *)
  | panic_exec (err : error)            (* [panic(err)] after [db.Exec] *)
  | logged (op : queuedOp) (sleep : Z). (* the row is inserted *)

(** One pass; [Exec_err] is what [db.Exec] answers for the statement.  The
    arguments of [db.Exec] are evaluated from left to right, so the altitude
    is read after the time is parsed and before the statement is sent. *)
Definition logPassOf (data : MifiNMEAData) (now : time.Time)
    (Exec_err : queuedOp → option error) : logPass :=
  match RMC data with
  | None => retry
  | Some rmc =>
      match time.Parse (Date_String (RMC_Date rmc) +:+ "T" +:+ Time_String (RMC_Time rmc)) with
      | Err err => panic_time err
      | Ok t =>
          match GGA data with
          | None => panic_nil
          | Some gga =>
              let op := {|
                query := insertQuery;
                args := [ arg_Time now;
                          arg_Time t;
                          arg_string (pointZ (RMC_Longitude rmc) (RMC_Latitude rmc) (GGA_Altitude gga));
                          arg_float64 (RMC_Speed rmc);
                          arg_float64 (RMC_Course rmc) ] |} in
              match Exec_err op with
              | Some err => panic_exec err
              | None => logged op (15 * 60)
              end
          end
      end
  end.

(** The read loop of the first [getGPS]: the [default] case of the switch
    logs and goes on. *)
Fixpoint readLoop (data : MifiNMEAData) (reads : list readLine)
    : MifiNMEAData * option error * list readLine :=
  match reads with
  | [] => (data, Some (errors_New "reached end of connection to mifi"), [])
  | ReadError err :: rest =>
      if errors_Is err io_EOF
      then (data, Some (errors_New "reached end of connection to mifi"), rest)
      else (data, Some err, rest)
  | Line line :: rest =>
      let line := bytes_Trim line [x00] in
      if bool_decide (String.string_of_list_byte line = "") then readLoop data rest
      else
        match nmea_Parse (String.string_of_list_byte line) with
        | Err err => (data, Some (fmt_Errorf "failed to parse nmea line: %w" err), rest)
        | Ok s =>
            match s with
            | TypeRMC m =>
                readLoop {| RMC := Some m; GGA := GGA data; GSA := GSA data; GSV := GSV data; VTG := VTG data |} rest
            | TypeGGA m =>
                readLoop {| RMC := RMC data; GGA := Some m; GSA := GSA data; GSV := GSV data; VTG := VTG data |} rest
            | TypeGSA m =>
                readLoop {| RMC := RMC data; GGA := GGA data; GSA := Some m; GSV := GSV data; VTG := VTG data |} rest
            | TypeGSV m =>
                readLoop {| RMC := RMC data; GGA := GGA data; GSA := GSA data; GSV := Some m; VTG := VTG data |} rest
            | TypeVTG m =>
                readLoop {| RMC := RMC data; GGA := GGA data; GSA := GSA data; GSV := GSV data; VTG := Some m |} rest
            | Other dataType => readLoop data rest
            end
        end
  end.

End V1.
End V1.

(** ** A test double for the imports

    Floats are counted in millionths, which is exact for everything [%f]
    prints; dates and times are their renderings; the parser knows three
    lines; the device connection hands out the bytes it still holds. *)

Module Fixture.

Definition digitChar (d : Z) : ascii := ascii_of_N (Z.to_N (48 + d)).

(** The last [width] decimal digits of [n], in front of [acc]. *)
Fixpoint digits (width : nat) (n : Z) (acc : string) : string :=
  match width with
  | O => acc
  | S width => digits width (n `div` 10) (String (digitChar (n `mod` 10)) acc)
  end.

(** The decimal digits of [n], at least one, none of them a leading zero. *)
Fixpoint decimal (fuel : nat) (n : Z) (acc : string) : string :=
  match fuel with
  | O => acc
  | S fuel =>
      let acc := String (digitChar (n `mod` 10)) acc in
      if n <? 10 then acc else decimal fuel (n `div` 10) acc
  end.

(** [%f]: six decimals. *)
Definition fixed6 (x : Z) : string :=
  let a := Z.abs x in
  (if x <? 0 then "-" else "") +:+ decimal 20 (a `div` 1000000) "" +:+ "." +:+
  digits 6 (a `mod` 1000000) "".

Definition extern : Extern := {|
  float64 := Z;
  nmea_Date := string;
  nmea_Time := string;
  nmea_GSA := string;
  nmea_GSV := string;
  nmea_VTG := string;
  Date_String := id;
  Time_String := id;
  Sprintf_f := fixed6
|}.
#[local] Existing Instance extern.

Definition rmc : nmea_RMC := {|
  RMC_Time := "10:30:00.00";
  RMC_Latitude := 47606209;
  RMC_Longitude := -122332071;
  RMC_Speed := 4200000;
  RMC_Course := 271500000;
  RMC_Date := "15/06/24"
|}.

Definition gga : nmea_GGA := {|
  GGA_Time := "10:30:00.00";
  GGA_Latitude := 47606209;
  GGA_Longitude := -122332071;
  GGA_FixQuality := "1";
  GGA_Altitude := 12500000
|}.

Definition Parse (line : string) : result error Sentence :=
  if bool_decide (line = "$GPRMC") then Ok (TypeRMC rmc)
  else if bool_decide (line = "$GPGGA") then Ok (TypeGGA gga)
  else if bool_decide (line = "$GPGLL") then Ok (Other "GLL")
  else Err (errors_New "nmea: sentence does not start with a '$' or '!'").

Definition bytes (s : string) : list byte := String.list_byte_of_string s.

(** A store with both fragments, and one with satellite geometry only. *)
Definition bothFragments : MifiNMEAData :=
  {| RMC := Some rmc; GGA := Some gga; GSA := None; GSV := None; VTG := None |}.
Definition geometryOnly : MifiNMEAData :=
  {| RMC := None; GGA := None; GSA := Some "GSA"; GSV := None; VTG := None |}.

(** The wall clock, [n] minutes after 2024-06-15 11:00 (for less than
    thirteen hours). *)
Definition clock (n : Z) : time.Time :=
  time.Date 2024 6 15 (11 + n `div` 60) (n `mod` 60) 0 0.

(** The record queued at minute [n]. *)
Definition record (n : Z) : queuedOp := {|
  query := insertQuery;
  args := [ arg_Time (clock n);
            arg_Time (time.Date 2024 6 15 10 30 0 0);
            arg_string "SRID=4326;POINTZ(-122.332071 47.606209 12.500000)";
            arg_float64 4200000;
            arg_float64 271500000 ]
|}.

Definition healthy : sqlDB :=
  {| Begin_err := None; Exec_err := λ _ _, None; Commit_err := None |}.

(** A store whose [k]-th insert of a transaction fails (counting from 0). *)
Definition failsAt (k : nat) : sqlDB :=
  {| Begin_err := None;
     Exec_err := λ n _, if (n =? k)%nat then Some (errors_New "pq: connection lost") else None;
     Commit_err := None |}.

(** An RMC fragment dated 31 February, and stores built around it. *)
Definition rmcFeb31 : nmea_RMC := {|
  RMC_Time := "10:30:00.00";
  RMC_Latitude := 47606209;
  RMC_Longitude := -122332071;
  RMC_Speed := 4200000;
  RMC_Course := 271500000;
  RMC_Date := "31/02/24"
|}.
Definition feb31 : MifiNMEAData :=
  {| RMC := Some rmcFeb31; GGA := Some gga; GSA := None; GSV := None; VTG := None |}.
Definition rmcOnly : MifiNMEAData :=
  {| RMC := Some rmc; GGA := None; GSA := None; GSV := None; VTG := None |}.


(** A store that takes every insert and then fails to commit. *)
Definition commitFails : sqlDB :=
  {| Begin_err := None; Exec_err := λ _ _, None;
     Commit_err := Some (errors_New "pq: connection lost") |}.

Definition conn : NetConn := {|
  net_Conn := list byte;
  Conn_Read := λ pending b,
    if bool_decide (pending = []) then (pending, b, 0, Some io_EOF)
    else let '(b', n) := copy b pending in (drop (Z.to_nat n) pending, b', n, None)
|}.

End Fixture.

(** ** Properties *)

Section StoreProperties.
Context `{Extern}.

Lemma Clear_zero (d : MifiNMEAData) : Clear d = zeroData.
Proof. reflexivity. Qed.

(** C8. After [Clear], whatever the store held before, a reader that takes
    the lock finds all five slots (RMC, GGA, GSA, GSV, VTG) nil. *)
Theorem Clear_then_snapshot_empty (d : MifiNMEAData) :
  RMC (Clear d) = None ∧ GGA (Clear d) = None ∧ GSA (Clear d) = None ∧
  GSV (Clear d) = None ∧ VTG (Clear d) = None.
Proof. rewrite Clear_zero. repeat split. Qed.

End StoreProperties.

Section SamplerProperties.
Context `{Extern}.

Lemma max_len_minus_100 (n : Z) : max (n - 100) n = n.
Proof. unfold max. destruct (Z.gtb_spec (n - 100) n); lia. Qed.

(** The slice expression of [queueLocation] keeps the whole queue. *)
Lemma retention_slice_id (q : list queuedOp) :
  slice_to q (max (len q - 100) (len q)) = q.
Proof.
  rewrite max_len_minus_100. unfold slice_to, len.
  rewrite Nat2Z.id. apply firstn_all.
Qed.

(** A sampling cycle either appends one record or leaves the queue alone. *)
Lemma queueLocation_queue (data : MifiNMEAData) (now : time.Time) (queue : list queuedOp) :
  match queueLocation data now queue with
  | (None, queue') => ∃ op, queue' = queue ++ [op]
  | (Some _, queue') => queue' = queue
  end.
Proof.
  unfold queueLocation.
  destruct (RMC data) as [rmc|]; [|reflexivity].
  destruct (GGA data) as [gga|]; [|reflexivity].
  destruct (time.Parse _); [|reflexivity].
  rewrite retention_slice_id. eauto.
Qed.

(** X29. With both fragments present and a date and time that parse, every
    sampling cycle makes the queue one longer, whatever its length: without
    a flush the queue grows without bound. *)
Lemma sample_length (data : MifiNMEAData) (rmc : nmea_RMC) (gga : nmea_GGA) (t : time.Time)
    (clock : list time.Time) (queue : list queuedOp) :
  RMC data = Some rmc → GGA data = Some gga →
  time.Parse (Date_String (RMC_Date rmc) +:+ "T" +:+ Time_String (RMC_Time rmc)) = Ok t →
  length (sample data clock queue) = (length queue + length clock)%nat.
Proof.
  intros Hrmc Hgga Ht. revert queue.
  induction clock as [|now clock IH]; intros queue; simpl.
  - lia.
  - unfold sample in *. simpl. rewrite IH.
    unfold queueLocation. rewrite Hrmc, Hgga, Ht, retention_slice_id. simpl.
    rewrite length_app. simpl. lia.
Qed.

(** C6. If the RMC or the GGA fragment is absent from the store, a sampling
    cycle returns [ErrNoDataToLog] and the queue is as it was. *)
Theorem queueLocation_no_data (data : MifiNMEAData) (now : time.Time) (queue : list queuedOp) :
  RMC data = None ∨ GGA data = None →
  queueLocation data now queue = (Some ErrNoDataToLog, queue).
Proof.
  unfold queueLocation. intros [-> | ->]; [reflexivity|].
  destruct (RMC data); reflexivity.
Qed.

(** C7. With an RMC fragment whose date prints as 15/06/24 and whose time
    prints as 10:30:00.00, and a GGA fragment with altitude [alt] (12.5 in
    the specification), a sampling cycle appends exactly one record: its
    device timestamp is 2024-06-15T10:30:00 and its point is built from the
    RMC longitude, the RMC latitude and [alt]. *)
Theorem queueLocation_timestamp_and_point
    (data : MifiNMEAData) (rmc : nmea_RMC) (gga : nmea_GGA) (alt : float64)
    (now : time.Time) (queue : list queuedOp) :
  RMC data = Some rmc →
  GGA data = Some gga →
  Date_String (RMC_Date rmc) = "15/06/24" →
  Time_String (RMC_Time rmc) = "10:30:00.00" →
  GGA_Altitude gga = alt →
  queueLocation data now queue =
    (None,
     queue ++ [ {| query := insertQuery;
                   args := [ arg_Time now;
                             arg_Time (time.Date 2024 6 15 10 30 0 0);
                             arg_string (pointZ (RMC_Longitude rmc) (RMC_Latitude rmc) alt);
                             arg_float64 (RMC_Speed rmc);
                             arg_float64 (RMC_Course rmc) ] |} ]).
Proof.
  intros Hrmc Hgga Hdate Htime <-.
  unfold queueLocation. rewrite Hrmc, Hgga, Hdate, Htime.
  change (time.Parse ("15/06/24" +:+ "T" +:+ "10:30:00.00"))
    with (time.Parse "15/06/24T10:30:00.00").
  replace (time.Parse "15/06/24T10:30:00.00")
    with (Ok (E := time.ParseError) (time.Date 2024 6 15 10 30 0 0))
    by (vm_compute; reflexivity).
  rewrite retention_slice_id. reflexivity.
Qed.

End SamplerProperties.

Section FlusherProperties.
Context `{Extern}.

(** What the loop of [pushToDB] leaves behind: either every queued
    statement was executed, in queue order, and the queue is empty; or the
    statements up to the first one the database refused were executed, in
    queue order, and the queue starts at the refused one. *)
Lemma execLoop_inv (db : sqlDB) (queue execs : list queuedOp) :
  match execLoop db execs queue with
  | (None, queue', execs') => queue' = [] ∧ execs' = execs ++ queue
  | (Some e, queue', execs') =>
      ∃ pre op post err,
        queue = pre ++ op :: post ∧ queue' = op :: post ∧
        execs' = execs ++ pre ++ [op] ∧
        Exec_err db (length (execs ++ pre)) op = Some err ∧
        e = fmt_Errorf "failed to insert to DB: %w" err
  end.
Proof.
  revert execs. induction queue as [|op rest IH]; intros execs; simpl.
  - split; [reflexivity | by rewrite app_nil_r].
  - destruct (Exec_err db (length execs) op) as [err|] eqn:Hop.
    + exists [], op, rest, err. rewrite app_nil_r. by repeat split.
    + specialize (IH (execs ++ [op])).
      destruct (execLoop db (execs ++ [op]) rest) as [[[e|] queue'] execs'].
      * destruct IH as (pre & op' & post & err & -> & -> & -> & Herr & ->).
        exists (op :: pre), op', post, err.
        split; [reflexivity|]. split; [reflexivity|].
        split; [by rewrite <- !app_assoc|].
        split; [|reflexivity].
        rewrite <- Herr. f_equal. rewrite <- app_assoc. reflexivity.
      * destruct IH as [-> ->]. split; [reflexivity | by rewrite <- app_assoc].
Qed.


(** X13. When nothing fails the whole queue is committed, in order, behind
    the rows already there, and the queue is left empty. *)
Lemma pushToDB_healthy (db : sqlDB) (rows queue : list queuedOp) :
  Begin_err db = None → (∀ n op, Exec_err db n op = None) → Commit_err db = None →
  pushToDB db rows queue =
    {| push_err := None; push_queue := []; push_rows := rows ++ queue; push_execs := queue |}.
Proof.
  intros Hbegin Hexec Hcommit. unfold pushToDB. rewrite Hbegin.
  pose proof (execLoop_inv db queue []) as Hinv.
  destruct (execLoop db [] queue) as [[[e|] queue'] execs']; simpl in *.
  - destruct Hinv as (pre & op & post & err & _ & _ & _ & Herr & _).
    rewrite Hexec in Herr. discriminate.
  - destruct Hinv as [-> ->]. by rewrite Hcommit.
Qed.

(** X14. A refused insert costs the records before it: the call returns the
    error wrapped with the queue starting at the refused record, and the
    records before it have left the queue although their transaction is
    never committed. *)
Lemma pushToDB_refused (db : sqlDB) (rows pre post : list queuedOp) (op : queuedOp) (err : error) :
  Begin_err db = None →
  (∀ i op', pre !! i = Some op' → Exec_err db i op' = None) →
  Exec_err db (length pre) op = Some err →
  pushToDB db rows (pre ++ op :: post) =
    {| push_err := Some (fmt_Errorf "failed to insert to DB: %w" err);
       push_queue := op :: post; push_rows := rows; push_execs := pre ++ [op] |}.
Proof.
  intros Hbegin Hpre Hop. unfold pushToDB. rewrite Hbegin.
  assert (∀ execs, (∀ i op', pre !! i = Some op' → Exec_err db (length execs + i) op' = None) →
            Exec_err db (length execs + length pre) op = Some err →
            execLoop db execs (pre ++ op :: post) =
              (Some (fmt_Errorf "failed to insert to DB: %w" err), op :: post, execs ++ pre ++ [op]))
    as Hloop.
  { clear Hpre Hop. induction pre as [|x pre IH]; intros execs Hpre Hop; simpl.
    - rewrite Nat.add_0_r in Hop. by rewrite Hop.
    - specialize (Hpre 0%nat x eq_refl) as Hx. rewrite Nat.add_0_r in Hx. rewrite Hx.
      rewrite IH.
      + by rewrite <- app_assoc.
      + intros i op' Hi. rewrite length_app; simpl.
        replace (length execs + 1 + i)%nat with (length execs + S i)%nat by lia.
        by apply Hpre.
      + rewrite length_app; simpl. rewrite <- Hop. f_equal. simpl. lia. }
  rewrite (Hloop []); [reflexivity | exact Hpre | exact Hop].
Qed.

End FlusherProperties.

Section ReaderProperties.
Context `{Extern}.
Context (nmea_Parse : string → result error Sentence).

(** One call of [parseGPS] writes the slot of the sentence the line decodes
    to and no other. *)
Lemma parseGPS_slots (data : MifiNMEAData) (line : list byte) :
  let data' := (parseGPS nmea_Parse data line).1 in
  RMC data' = from_option Some (RMC data) (decoded nmea_Parse line ≫= asRMC) ∧
  GGA data' = from_option Some (GGA data) (decoded nmea_Parse line ≫= asGGA) ∧
  GSA data' = from_option Some (GSA data) (decoded nmea_Parse line ≫= asGSA) ∧
  GSV data' = from_option Some (GSV data) (decoded nmea_Parse line ≫= asGSV) ∧
  VTG data' = from_option Some (VTG data) (decoded nmea_Parse line ≫= asVTG).
Proof.
  unfold parseGPS, decoded.
  destruct (nmea_Parse _) as [[m|m|m|m|m|t]|e]; simpl; repeat split.
Qed.

(** A call that returns an error leaves the store as it was. *)
Lemma parseGPS_error_keeps_store (data data' : MifiNMEAData) (line : list byte) (err : error) :
  parseGPS nmea_Parse data line = (data', Some err) → data' = data.
Proof.
  unfold parseGPS.
  destruct (nmea_Parse _) as [[m|m|m|m|m|t]|e]; simpl; congruence.
Qed.

(** The slots after a sequence of lines, from any store. *)
Lemma feed_slots (lines : list (list byte)) (data : MifiNMEAData) :
  let data' := feed nmea_Parse data lines in
  RMC data' = from_option Some (RMC data) (lastUpdate nmea_Parse asRMC lines) ∧
  GGA data' = from_option Some (GGA data) (lastUpdate nmea_Parse asGGA lines) ∧
  GSA data' = from_option Some (GSA data) (lastUpdate nmea_Parse asGSA lines) ∧
  GSV data' = from_option Some (GSV data) (lastUpdate nmea_Parse asGSV lines) ∧
  VTG data' = from_option Some (VTG data) (lastUpdate nmea_Parse asVTG lines).
Proof.
  revert data. induction lines as [|line rest IH]; intros data; simpl.
  - repeat split.
  - destruct (IH ((parseGPS nmea_Parse data line).1)) as (H1 & H2 & H3 & H4 & H5).
    destruct (parseGPS_slots data line) as (S1 & S2 & S3 & S4 & S5).
    unfold feed in *. simpl.
    rewrite H1, H2, H3, H4, H5, S1, S2, S3, S4, S5.
    repeat split.
    + destruct (lastUpdate nmea_Parse asRMC rest); reflexivity.
    + destruct (lastUpdate nmea_Parse asGGA rest); reflexivity.
    + destruct (lastUpdate nmea_Parse asGSA rest); reflexivity.
    + destruct (lastUpdate nmea_Parse asGSV rest); reflexivity.
    + destruct (lastUpdate nmea_Parse asVTG rest); reflexivity.
Qed.

(** C5. After any finite sequence of lines has gone through [parseGPS],
    starting from the empty store, each of the five slots holds the value
    of the last update of its variant in the sequence, or nil when the
    sequence has none; and a single update changes the slot of its own
    variant only. *)
Theorem last_write_wins_per_variant (lines : list (list byte)) :
  let data := feed nmea_Parse zeroData lines in
  (RMC data = lastUpdate nmea_Parse asRMC lines ∧
   GGA data = lastUpdate nmea_Parse asGGA lines ∧
   GSA data = lastUpdate nmea_Parse asGSA lines ∧
   GSV data = lastUpdate nmea_Parse asGSV lines ∧
   VTG data = lastUpdate nmea_Parse asVTG lines) ∧
  (∀ (d : MifiNMEAData) (line : list byte),
     let d' := (parseGPS nmea_Parse d line).1 in
     (decoded nmea_Parse line ≫= asRMC = None → RMC d' = RMC d) ∧
     (decoded nmea_Parse line ≫= asGGA = None → GGA d' = GGA d) ∧
     (decoded nmea_Parse line ≫= asGSA = None → GSA d' = GSA d) ∧
     (decoded nmea_Parse line ≫= asGSV = None → GSV d' = GSV d) ∧
     (decoded nmea_Parse line ≫= asVTG = None → VTG d' = VTG d)).
Proof.
  split.
  - destruct (feed_slots lines zeroData) as (H1 & H2 & H3 & H4 & H5).
    simpl in *. rewrite H1, H2, H3, H4, H5.
    repeat split; match goal with |- context [from_option _ _ ?o] => by destruct o end.
  - intros d line. destruct (parseGPS_slots d line) as (S1 & S2 & S3 & S4 & S5).
    simpl in *. rewrite S1, S2, S3, S4, S5.
    repeat split; intros ->; reflexivity.
Qed.

(** C3, as the code has it. A line that is not empty once its null bytes
    are trimmed and that [parseGPS] rejects (not a sentence, or a sentence
    of a type the switch has no case for) ends the read loop: [getGPS]
    returns the error wrapped, the lines behind it stay unread, and the
    goroutine clears the store and sleeps a minute before it connects
    again, as it does for a read error. *)
Theorem bad_line_ends_stream
    (data data' : MifiNMEAData) (line : list byte) (rest : list readLine) (err : error) :
  String.string_of_list_byte (bytes_Trim line [x00]) ≠ "" →
  parseGPS nmea_Parse data (bytes_Trim line [x00]) = (data', Some err) →
  getGPS nmea_Parse data (Body (Line line :: rest)) =
    (data, Some (fmt_Errorf "failed to parse gps line: %w" err), rest) ∧
  readerTurn nmea_Parse data (Body (Line line :: rest)) =
    {| turn_data := zeroData;
       turn_logged := Some (fmt_Errorf "failed to parse gps line: %w" err);
       turn_unread := rest;
       turn_sleep := 60 |}.
Proof.
  intros Hline Hparse.
  pose proof (parseGPS_error_keeps_store _ _ _ _ Hparse) as ->.
  assert (getGPS nmea_Parse data (Body (Line line :: rest)) =
            (data, Some (fmt_Errorf "failed to parse gps line: %w" err), rest)) as Hget.
  { simpl. rewrite bool_decide_eq_false_2 by exact Hline. by rewrite Hparse. }
  split; [exact Hget|].
  unfold readerTurn. rewrite Hget. reflexivity.
Qed.

(** A read error ends the stream the same way. *)
Lemma read_error_ends_stream (data : MifiNMEAData) (rest : list readLine) (err : error) :
  errors_Is err io_EOF = false →
  readerTurn nmea_Parse data (Body (ReadError err :: rest)) =
    {| turn_data := zeroData; turn_logged := Some err; turn_unread := rest; turn_sleep := 60 |}.
Proof. intros Herr. unfold readerTurn. simpl. by rewrite Herr. Qed.

(** Lines that are empty once trimmed are skipped. *)
Lemma empty_line_skipped (data : MifiNMEAData) (line : list byte) (rest : list readLine) :
  String.string_of_list_byte (bytes_Trim line [x00]) = "" →
  readLoop nmea_Parse data (Line line :: rest) = readLoop nmea_Parse data rest.
Proof. intros Hline. simpl. by rewrite bool_decide_eq_true_2. Qed.

End ReaderProperties.

(** [main] stops for an empty connection string and for nothing else. *)
Lemma main_checks_connStr_only (env : gmap string string) :
  main env =
    if bool_decide (os_Getenv env "MIFI_GPS_DBCONNSTR" = "")
    then panic "missing db connection string in env var MIFI_GPS_DBCONNSTR"
    else started (os_Getenv env "MIFI_GPS_DBCONNSTR") (os_Getenv env "MIFI_GPS_MAPSAPIKEY").
Proof. unfold main. by case_bool_decide. Qed.

Section WrapperProperties.
Context `{NetConn}.

Lemma response_preamble_length : length response_preamble = 69%nat.
Proof. reflexivity. Qed.

(** C10, as the code has it. The first [Read] copies the fabricated
    preamble, which is 69 bytes long, into the buffer and returns 69
    whatever the length of the buffer; for a buffer shorter than 69 bytes
    that is more than the bytes written; every later [Read] is the [Read]
    of the wrapped connection, unchanged. *)
Theorem Read_preamble_then_passthrough (c : Http0_9ConnWrapper) (b : list byte) :
  (haveReadAny c = false →
     Read c b = ({| Conn := Conn c; haveReadAny := true |},
                 (copy b response_preamble).1, 69, None) ∧
     (copy b response_preamble).2 = Z.min (len b) 69 ∧
     (len b < 69 → (copy b response_preamble).2 < 69)) ∧
  (haveReadAny c = true →
     Read c b = (let '(conn, b', n, err) := Conn_Read (Conn c) b in
                 ({| Conn := conn; haveReadAny := true |}, b', n, err))).
Proof.
  split; intros Hflag; unfold Read; rewrite Hflag.
  - split; [reflexivity|].
    unfold copy, len; cbn [fst snd]. rewrite response_preamble_length. split; lia.
  - reflexivity.
Qed.

End WrapperProperties.

(** ** The properties at concrete inputs *)

Section Evaluations.
#[local] Existing Instance Fixture.extern.
#[local] Existing Instance Fixture.conn.

Import Fixture.

(** Witness of C6: a store with satellite geometry only. *)
Lemma queueLocation_no_data_witness :
  (RMC geometryOnly = None ∨ GGA geometryOnly = None) ∧
  queueLocation geometryOnly (clock 0) [record 0] = (Some ErrNoDataToLog, [record 0]).
Proof.
  split; [left; reflexivity|].
  apply (queueLocation_no_data geometryOnly (clock 0) [record 0]).
  left; reflexivity.
Defined.

(** Witness of C7: the fragments of the specification's example, altitude
    12.5. *)
Lemma queueLocation_timestamp_and_point_witness :
  queueLocation bothFragments (clock 7) [record 0] = (None, [record 0; record 7]).
Proof.
  apply (queueLocation_timestamp_and_point bothFragments rmc gga 12500000 (clock 7) [record 0]);
    reflexivity.
Defined.

(** Witness of C5: the second RMC line and the GGA line are what the store
    holds; the rejected lines in between change nothing. *)
Lemma last_write_wins_per_variant_witness :
  let data := feed Parse zeroData
                [bytes "$GPRMC"; bytes "garbage"; bytes "$GPGGA"; bytes "$GPGLL"; bytes "$GPRMC"] in
  RMC data = Some rmc ∧ GGA data = Some gga ∧ GSA data = None ∧
  GSV data = None ∧ VTG data = None.
Proof.
  exact (proj1 (last_write_wins_per_variant Parse
           [bytes "$GPRMC"; bytes "garbage"; bytes "$GPGGA"; bytes "$GPGLL"; bytes "$GPRMC"])).
Defined.

(** C1 (the code departs from it). Five records are queued and the store
    refuses the third insert: the call returns the error with only the
    third, fourth and fifth record left in the queue, and nothing
    committed; the healthy retry commits those three, so the first two
    records are neither stored nor queued any more. *)
Theorem pushToDB_failure_drops_flushed_prefix :
  pushToDB (failsAt 2) [] (record <$> [1; 2; 3; 4; 5]) =
    {| push_err := Some (fmt_Errorf "failed to insert to DB: %w" (errors_New "pq: connection lost"));
       push_queue := record <$> [3; 4; 5];
       push_rows := [];
       push_execs := record <$> [1; 2; 3] |} ∧
  pushToDB healthy [] (record <$> [3; 4; 5]) =
    {| push_err := None;
       push_queue := [];
       push_rows := record <$> [3; 4; 5];
       push_execs := record <$> [3; 4; 5] |}.
Proof. split; reflexivity. Qed.

(** C2 (the code departs from it). 101 sampling cycles with no flush in
    between leave 101 records in the queue, the oldest still first: the
    slice bound [max(len(queue)-100, len(queue))] is always [len(queue)]. *)
Theorem queue_grows_past_retention_cap :
  sample bothFragments (clock <$> seqZ 0 101) [] = record <$> seqZ 0 101 ∧
  len (sample bothFragments (clock <$> seqZ 0 101) []) = 101.
Proof. split; reflexivity. Qed.

(** C3 fails as stated. The store holds both fragments and the connection
    gives a line that is no sentence, then a good GGA line: the read loop
    returns at the first line, the GGA line is never read, and the turn
    ends with the store cleared and a minute of sleep. *)
Lemma bad_line_aborts_stream :
  readerTurn Parse bothFragments (Body [Line (bytes "garbage"); Line (bytes "$GPGGA")]) =
    {| turn_data := zeroData;
       turn_logged :=
         Some (fmt_Errorf "failed to parse gps line: %w"
                 (fmt_Errorf "failed to parse nmea line: %w"
                    (errors_New "nmea: sentence does not start with a '$' or '!'")));
       turn_unread := [Line (bytes "$GPGGA")];
       turn_sleep := 60 |} ∧
  readLoop Parse bothFragments [Line (bytes "garbage"); Line (bytes "$GPGGA")] ≠
    readLoop Parse bothFragments [Line (bytes "$GPGGA")] ∧
  bothFragments ≠ zeroData.
Proof.
  split; [reflexivity|]. split; intros Heq.
  - apply (f_equal snd) in Heq. discriminate Heq.
  - apply (f_equal RMC) in Heq. discriminate Heq.
Qed.

(** Witness of C3 as the code has it: the same line and store. *)
Lemma bad_line_ends_stream_witness :
  getGPS Parse bothFragments (Body [Line (bytes "garbage"); Line (bytes "$GPGGA")]) =
    (bothFragments,
     Some (fmt_Errorf "failed to parse gps line: %w"
             (fmt_Errorf "failed to parse nmea line: %w"
                (errors_New "nmea: sentence does not start with a '$' or '!'"))),
     [Line (bytes "$GPGGA")]).
Proof.
  refine (proj1 (bad_line_ends_stream Parse bothFragments bothFragments (bytes "garbage")
                   [Line (bytes "$GPGGA")] _ _ _)).
  - vm_compute; discriminate.
  - reflexivity.
Defined.

(** C4 (the code departs from it). With the connection string set and the
    maps key absent, [main] passes both checks: the second one tests the
    connection string again. *)
Theorem main_starts_without_maps_key :
  main {[ "MIFI_GPS_DBCONNSTR" := "postgres://gps@db/gps" ]} =
    started "postgres://gps@db/gps" "".
Proof. vm_compute; reflexivity. Qed.

(** C10 fails as stated. The first [Read] into a 128-byte buffer returns
    69, not 71; and into a 70-byte buffer, shorter than 71, it writes 69
    bytes and returns 69, not more than it wrote. *)
Lemma Read_first_count_is_not_71 :
  let c := {| Conn := bytes "$GPRMC"; haveReadAny := false |} in
  (Read c (replicate 128 x00)).1.2 = 69 ∧
  (Read c (replicate 128 x00)).1.2 ≠ 71 ∧
  (len (replicate 70 x00) < 71 ∧
   ¬ (copy (replicate 70 x00) response_preamble).2 < (Read c (replicate 70 x00)).1.2).
Proof. vm_compute. repeat split; congruence. Qed.

(** Witness of C10 as the code has it: a 16-byte buffer on a fresh
    wrapper. *)
Lemma Read_preamble_then_passthrough_witness :
  let c := {| Conn := bytes "$GPRMC"; haveReadAny := false |} in
  (Read c (replicate 16 x00)).1.2 = 69 ∧
  (copy (replicate 16 x00) response_preamble).2 = 16.
Proof.
  intros c.
  destruct (proj1 (Read_preamble_then_passthrough c (replicate 16 x00)) eq_refl)
    as (Hread & Hcopy & _).
  split; [by rewrite Hread | by rewrite Hcopy].
Defined.

End Evaluations.

(** ** Further properties of the connection wrapper, [max] and start-up *)

Section WrapperFlag.
Context `{NetConn}.

(** X1. The first [Read] does not touch the wrapped connection, so the second
    [Read] gives exactly what the connection's own first [Read] gives: the
    preamble costs no byte of the device's stream. *)
Theorem Read_second_is_connection_first
    (c : Http0_9ConnWrapper) (b1 b2 : list byte) :
  haveReadAny c = false →
  Read (Read c b1).1.1.1 b2 =
    (let '(conn, b', n, err) := Conn_Read (Conn c) b2 in
     ({| Conn := conn; haveReadAny := true |}, b', n, err)).
Proof. intros Hflag. unfold Read at 2. rewrite Hflag. reflexivity. Qed.

(** X2. After any [Read], first or not, [haveReadAny] is set: the preamble
    is handed out at most once in the life of a wrapper. *)
Theorem Read_sets_haveReadAny (c : Http0_9ConnWrapper) (b : list byte) :
  haveReadAny (Read c b).1.1.1 = true.
Proof.
  unfold Read. destruct (haveReadAny c) eqn:Hflag; [|reflexivity].
  destruct (Conn_Read (Conn c) b) as [[[conn b'] n] err]. reflexivity.
Qed.

(** X3. The first [Read] keeps the length of the buffer: the buffer gets the
    preamble cut to its length, and whatever lies beyond byte 69 stays. *)
Theorem Read_first_buffer (c : Http0_9ConnWrapper) (b : list byte) :
  haveReadAny c = false →
  (Read c b).1.1.2 = take (length b) response_preamble ++ drop 69 b ∧
  length (Read c b).1.1.2 = length b.
Proof.
  intros Hflag. unfold Read. rewrite Hflag. cbn [fst snd]. unfold copy. cbn [fst snd].
  pose proof response_preamble_length as Hlen. rewrite Hlen.
  destruct (Nat.le_gt_cases 69 (length b)) as [Hb|Hb].
  - rewrite Nat.min_r by lia.
    rewrite (take_ge response_preamble (length b)) by lia.
    rewrite (take_ge response_preamble 69) by lia.
    split; [reflexivity|].
    rewrite length_app, length_drop, Hlen. lia.
  - rewrite Nat.min_l by lia.
    rewrite (drop_ge b 69) by lia. rewrite (drop_ge b (length b)) by lia.
    split; [reflexivity|].
    rewrite app_nil_r, length_take, Hlen. lia.
Qed.

End WrapperFlag.

(** X4. [max] is the greater of its two arguments. *)
Theorem max_is_the_greater (a b : Z) :
  max a b = Z.max a b.
Proof. unfold max. destruct (Z.gtb_spec a b); lia. Qed.

(** X5. [main] panics exactly when [MIFI_GPS_DBCONNSTR] is unset or empty,
    and then with the message about the connection string. *)
Theorem main_panics_iff_no_connStr (env : gmap string string) :
  (∃ msg, main env = panic msg) ↔
  (env !! "MIFI_GPS_DBCONNSTR" = None ∨ env !! "MIFI_GPS_DBCONNSTR" = Some "").
Proof.
  unfold main, os_Getenv.
  destruct (env !! "MIFI_GPS_DBCONNSTR") as [v|] eqn:Hv; simpl.
  - case_bool_decide as Hempty.
    + subst v. split; [by right | eauto].
    + split.
      * intros [msg Hmsg]. discriminate.
      * intros [?|?]; congruence.
  - split; [by left | eauto].
Qed.

(** X6. Whatever the environment, [main] never stops with the message about
    the maps key, and when it goes on it runs with the two values as
    [os.Getenv] gave them. *)
Theorem main_never_misses_maps_key (env : gmap string string) :
  main env ≠ panic "missing maps api key in env var MIFI_GPS_MAPSAPIKEY" ∧
  ∀ connStr mapsAPIKey,
    main env = started connStr mapsAPIKey →
    connStr = os_Getenv env "MIFI_GPS_DBCONNSTR" ∧ connStr ≠ "" ∧
    mapsAPIKey = os_Getenv env "MIFI_GPS_MAPSAPIKEY".
Proof.
  unfold main. case_bool_decide as Hempty.
  - split; [discriminate | intros ? ?; discriminate].
  - split; [discriminate|]. intros connStr mapsAPIKey [= <- <-]. by repeat split.
Qed.

(** ** Dates and times as the sentences print them *)

Section TimeLayout.

(** A property of the numbers from 0 to 99 holds when it computes to true on
    each of them. *)
Lemma below_100 (P : Z → Prop) `{!∀ n, Decision (P n)} :
  bool_decide (Forall P (seqZ 0 100)) = true → ∀ n, 0 ≤ n < 100 → P n.
Proof.
  intros Hall n Hn. apply bool_decide_eq_true_1 in Hall.
  rewrite Forall_forall in Hall. apply Hall, elem_of_seqZ. lia.
Qed.

Lemma Sprintf_02d_digits (n : Z) :
  0 ≤ n < 100 →
  ∃ c0 c1, Sprintf_02d n = String c0 (String c1 EmptyString) ∧
           time.digit c0 = Some (n `div` 10) ∧ time.digit c1 = Some (n `mod` 10).
Proof.
  intros Hn. eexists _, _. split; [reflexivity|].
  revert n Hn.
  refine (below_100
    (λ n, time.digit (ascii_of_N (Z.to_N (48 + n `div` 10))) = Some (n `div` 10) ∧
          time.digit (ascii_of_N (Z.to_N (48 + n `mod` 10))) = Some (n `mod` 10)) _).
  vm_compute. reflexivity.
Qed.

Lemma getnum_Sprintf_02d (n : Z) (rest : string) (fixed : bool) :
  0 ≤ n < 100 → time.getnum (Sprintf_02d n +:+ rest) fixed = Some (n, rest).
Proof.
  intros Hn. destruct (Sprintf_02d_digits n Hn) as (c0 & c1 & -> & H0 & H1).
  simpl. rewrite H0, H1. do 2 f_equal. pose proof (Z.div_mod n 10). lia.
Qed.

Lemma atoi_Sprintf_02d (n : Z) :
  0 ≤ n < 100 → time.atoi (Sprintf_02d n) = Some n.
Proof.
  revert n. refine (below_100 (λ n, time.atoi (Sprintf_02d n) = Some n) _).
  vm_compute. reflexivity.
Qed.

Lemma substring_whole (s : string) : String.substring 0 (String.length s) s = s.
Proof. induction s as [|c s IH]; simpl; [reflexivity | by rewrite IH]. Qed.

Lemma substring_none (s : string) : String.substring 0 0 s = EmptyString.
Proof. by destruct s. Qed.

Lemma inRange_ok (what : string) (lo x hi : Z) :
  lo ≤ x ≤ hi → time.inRange what lo x hi = Ok tt.
Proof.
  intros Hx. unfold time.inRange.
  destruct (Z.ltb_spec x lo); [lia|]. destruct (Z.ltb_spec hi x); [lia|]. reflexivity.
Qed.

Lemma append_assoc (s1 s2 s3 : string) : (s1 +:+ s2) +:+ s3 = s1 +:+ s2 +:+ s3.
Proof. induction s1 as [|c s1 IH]; [reflexivity | exact (f_equal (String c) IH)]. Qed.

Lemma lit_head (c : ascii) (rest : string) :
  time.lit (String c EmptyString +:+ rest) c = Ok rest.
Proof. unfold time.lit, time.skip. simpl. by rewrite bool_decide_eq_true_2. Qed.

Lemma string_take_Sprintf_02d (n : Z) (rest : string) :
  time.string_take 2 (Sprintf_02d n +:+ rest) = Sprintf_02d n.
Proof. unfold time.string_take, Sprintf_02d. simpl. by rewrite substring_none. Qed.

Lemma string_drop_Sprintf_02d (n : Z) (rest : string) :
  time.string_drop 2 (Sprintf_02d n +:+ rest) = rest.
Proof. unfold time.string_drop, Sprintf_02d. simpl. rewrite Nat.sub_0_r. apply substring_whole. Qed.

(** Two digits for each field, as package [nmea] prints a date and a time,
    followed by whatever fraction of a second the layout accepts, parse to
    those fields unless the month has no such day; the year lands between
    1969 and 2068. *)
Lemma Parse_two_digit_fields (dd mm yy hh mi ss nsec : Z) (frac : string) :
  0 ≤ dd < 100 → 1 ≤ mm ≤ 12 → 0 ≤ yy < 100 →
  0 ≤ hh ≤ 23 → 0 ≤ mi ≤ 59 → 0 ≤ ss ≤ 59 →
  time.fracSecond9 frac = Some (nsec, EmptyString) →
  time.Parse
    ((Sprintf_02d dd +:+ "/" +:+ Sprintf_02d mm +:+ "/" +:+ Sprintf_02d yy) +:+ "T" +:+
     (Sprintf_02d hh +:+ ":" +:+ Sprintf_02d mi +:+ ":" +:+ Sprintf_02d ss +:+ frac)) =
    if (dd <? 1) || (time.daysIn mm (fullYear yy) <? dd)
    then Err (time.outOfRange "day")
    else Ok (time.Date (fullYear yy) mm dd hh mi ss nsec).
Proof.
  intros Hdd Hmm Hyy Hhh Hmi Hss Hfrac.
  unfold time.Parse. rewrite !append_assoc.
  rewrite getnum_Sprintf_02d by lia. cbn [time.num mbind result_bind String.append].
  rewrite lit_head. cbn [mbind result_bind].
  rewrite getnum_Sprintf_02d by lia. cbn [time.num mbind result_bind String.append].
  rewrite inRange_ok by lia. cbn [mbind result_bind].
  rewrite lit_head. cbn [mbind result_bind].
  rewrite string_take_Sprintf_02d, string_drop_Sprintf_02d, atoi_Sprintf_02d by lia.
  replace (String.length _ <? 2)%nat with false by (symmetry; apply Nat.ltb_ge; simpl; lia).
  fold (fullYear yy). cbn [mbind result_bind String.append].
  rewrite lit_head. cbn [mbind result_bind].
  rewrite getnum_Sprintf_02d by lia. cbn [time.num mbind result_bind String.append].
  rewrite inRange_ok by lia. cbn [mbind result_bind].
  rewrite lit_head. cbn [mbind result_bind].
  rewrite getnum_Sprintf_02d by lia. cbn [time.num mbind result_bind String.append].
  rewrite inRange_ok by lia. cbn [mbind result_bind].
  rewrite lit_head. cbn [mbind result_bind].
  rewrite getnum_Sprintf_02d by lia. cbn [time.num mbind result_bind String.append].
  rewrite inRange_ok by lia. cbn [mbind result_bind].
  rewrite Hfrac. cbn [time.num mbind result_bind].
  rewrite bool_decide_eq_true_2 by reflexivity. reflexivity.
Qed.

End TimeLayout.

(** ** Further properties of the sampler *)

Section SamplerMore.
Context `{Extern}.

(** X7. When the RMC date prints as DD/MM/YY and the time as HH:MM:SS with
    an optional fraction, two digits each, and the month has that day, a
    sampling cycle queues one record stamped with exactly those fields; the
    two-digit year is read as 1969 to 1999 from 69 up and as 2000 to 2068
    below. *)
Theorem queueLocation_two_digit_stamp
    (data : MifiNMEAData) (rmc : nmea_RMC) (gga : nmea_GGA)
    (dd mm yy hh mi ss nsec : Z) (frac : string)
    (now : time.Time) (queue : list queuedOp) :
  RMC data = Some rmc → GGA data = Some gga →
  Date_String (RMC_Date rmc) = Sprintf_02d dd +:+ "/" +:+ Sprintf_02d mm +:+ "/" +:+ Sprintf_02d yy →
  Time_String (RMC_Time rmc) =
    Sprintf_02d hh +:+ ":" +:+ Sprintf_02d mi +:+ ":" +:+ Sprintf_02d ss +:+ frac →
  0 ≤ yy < 100 → 1 ≤ mm ≤ 12 → 1 ≤ dd ≤ time.daysIn mm (fullYear yy) →
  0 ≤ hh ≤ 23 → 0 ≤ mi ≤ 59 → 0 ≤ ss ≤ 59 →
  time.fracSecond9 frac = Some (nsec, EmptyString) →
  queueLocation data now queue =
    (None,
     queue ++ [ {| query := insertQuery;
                   args := [ arg_Time now;
                             arg_Time (time.Date (fullYear yy) mm dd hh mi ss nsec);
                             arg_string (pointZ (RMC_Longitude rmc) (RMC_Latitude rmc)
                                           (GGA_Altitude gga));
                             arg_float64 (RMC_Speed rmc);
                             arg_float64 (RMC_Course rmc) ] |} ]).
Proof.
  intros Hrmc Hgga Hdate Htime Hyy Hmm Hdd Hhh Hmi Hss Hfrac.
  assert (dd ≤ 31) as Hdd31.
  { unfold time.daysIn in Hdd. repeat case_match; lia. }
  unfold queueLocation. rewrite Hrmc, Hgga, Hdate, Htime.
  rewrite (Parse_two_digit_fields dd mm yy hh mi ss nsec frac) by (assumption || lia).
  destruct (Z.ltb_spec dd 1); [lia|].
  destruct (Z.ltb_spec (time.daysIn mm (fullYear yy)) dd); [lia|].
  cbn [orb]. rewrite retention_slice_id. reflexivity.
Qed.

(** X8. With the same two-digit renderings but a day the month does not
    have (0, or past the end of the month, as 31/02), the cycle fails with
    the day-out-of-range error wrapped and queues nothing. *)
Theorem queueLocation_refuses_impossible_day
    (data : MifiNMEAData) (rmc : nmea_RMC) (gga : nmea_GGA)
    (dd mm yy hh mi ss nsec : Z) (frac : string)
    (now : time.Time) (queue : list queuedOp) :
  RMC data = Some rmc → GGA data = Some gga →
  Date_String (RMC_Date rmc) = Sprintf_02d dd +:+ "/" +:+ Sprintf_02d mm +:+ "/" +:+ Sprintf_02d yy →
  Time_String (RMC_Time rmc) =
    Sprintf_02d hh +:+ ":" +:+ Sprintf_02d mi +:+ ":" +:+ Sprintf_02d ss +:+ frac →
  0 ≤ yy < 100 → 1 ≤ mm ≤ 12 → 0 ≤ dd < 100 →
  dd = 0 ∨ time.daysIn mm (fullYear yy) < dd →
  0 ≤ hh ≤ 23 → 0 ≤ mi ≤ 59 → 0 ≤ ss ≤ 59 →
  time.fracSecond9 frac = Some (nsec, EmptyString) →
  queueLocation data now queue =
    (Some (fmt_Errorf "failed to parse RMC date time: %w"
             (time_ParseError (time.outOfRange "day"))),
     queue).
Proof.
  intros Hrmc Hgga Hdate Htime Hyy Hmm Hdd Hbad Hhh Hmi Hss Hfrac.
  unfold queueLocation. rewrite Hrmc, Hgga, Hdate, Htime.
  rewrite (Parse_two_digit_fields dd mm yy hh mi ss nsec frac) by (assumption || lia).
  destruct (Z.ltb_spec dd 1); [reflexivity|].
  destruct (Z.ltb_spec (time.daysIn mm (fullYear yy)) dd); [reflexivity | lia].
Qed.

(** Membership in a list of log lines written out, case by case. *)
Ltac inv_log H :=
  repeat match type of H with
         | _ ∈ _ :: _ => apply elem_of_cons in H as [H|H]; [try discriminate H|]
         | _ ∈ [] => by apply elem_of_nil in H
         end.

(** X9. A turn of the sampling goroutine prints "skipped queuing, no data"
    exactly when the RMC or the GGA fragment is missing, and then prints
    nothing else and leaves the queue as it was; it prints "queuing
    location" exactly when both fragments are there; a turn that changes the
    queue prints that line and no other; and every turn sleeps fifteen
    minutes. *)
Theorem samplerTurn_skips_iff_no_data
    (data : MifiNMEAData) (now : time.Time) (queue : list queuedOp) :
  let queue' := (samplerTurn data now queue).1.1 in
  let log := (samplerTurn data now queue).1.2 in
  (skipped_no_data ∈ log ↔ RMC data = None ∨ GGA data = None) ∧
  (skipped_no_data ∈ log → log = [skipped_no_data] ∧ queue' = queue) ∧
  (queuing_location ∈ log ↔ is_Some (RMC data) ∧ is_Some (GGA data)) ∧
  (queue' ≠ queue → log = [queuing_location]) ∧
  (samplerTurn data now queue).2 = 900.
Proof.
  unfold samplerTurn, queueLocation, queueLocationLog.
  destruct (RMC data) as [rmc|]; [destruct (GGA data) as [gga|];
    [destruct (time.Parse _) as [t|e]|]|]; cbn; rewrite ?retention_slice_id.
  - split; [split; [intros Hin; inv_log Hin | intros [?|?]; discriminate]|].
    split; [intros Hin; inv_log Hin|].
    split; [split; [eauto | intros _; by left]|].
    split; [reflexivity | reflexivity].
  - split; [split; [intros Hin; inv_log Hin | intros [?|?]; discriminate]|].
    split; [intros Hin; inv_log Hin|].
    split; [split; [eauto | intros _; by left]|].
    split; [done | reflexivity].
  - split; [split; [by right | intros _; by left]|].
    split; [done|].
    split; [split; [intros Hin; inv_log Hin | intros [_ [? ?]]; discriminate]|].
    split; [done | reflexivity].
  - split; [split; [by left | intros _; by left]|].
    split; [done|].
    split; [split; [intros Hin; inv_log Hin | intros [[? ?] _]; discriminate]|].
    split; [done | reflexivity].
Qed.

(** X10. A sampling cycle never removes or reorders what is queued: the old
    queue is a prefix of the new one, which is at most one record longer, and
    a record it adds is the five-argument insert whose first argument is the
    wall clock of the call. *)
Theorem queueLocation_only_appends
    (data : MifiNMEAData) (now : time.Time) (queue : list queuedOp) :
  let queue' := (queueLocation data now queue).2 in
  queue `prefix_of` queue' ∧
  (length queue' ≤ length queue + 1)%nat ∧
  ∀ op, queue' = queue ++ [op] →
        query op = insertQuery ∧ length (args op) = 5%nat ∧ args op !! 0%nat = Some (arg_Time now).
Proof.
  unfold queueLocation.
  destruct (RMC data) as [rmc|]; [destruct (GGA data) as [gga|];
    [destruct (time.Parse _) as [t|e]|]|]; cbn [snd];
    try (split; [reflexivity | split; [lia|]];
         intros op Hop; apply (f_equal length) in Hop;
         rewrite length_app in Hop; simpl in Hop; lia).
  rewrite retention_slice_id. split; [by apply prefix_app_r|].
  split; [rewrite length_app; simpl; lia|].
  intros op Hop. apply app_inv_head in Hop. injection Hop as <-. by repeat split.
Qed.

End SamplerMore.

(** ** Further properties of the flusher *)

Section FlusherMore.
Context `{Extern}.

Lemma suffix_sublist_of {A} (l1 l2 : list A) : l1 `suffix_of` l2 → l1 `sublist_of` l2.
Proof. intros [k ->]. by apply sublist_inserts_l. Qed.

(** A call of [pushToDB] ends in one of two ways: everything queued is
    committed behind the old rows and the queue is empty, or the table is as
    it was and what is left of the queue is its tail. *)
Lemma pushToDB_cases (db : sqlDB) (rows queue : list queuedOp) :
  let r := pushToDB db rows queue in
  (push_err r = None ∧ push_rows r = rows ++ queue ∧ push_queue r = []) ∨
  (is_Some (push_err r) ∧ push_rows r = rows ∧ push_queue r `suffix_of` queue).
Proof.
  unfold pushToDB. destruct (Begin_err db) as [e|]; simpl.
  - right. split; [eauto | split; [reflexivity | reflexivity]].
  - pose proof (execLoop_inv db queue []) as Hinv.
    destruct (execLoop db [] queue) as [[[e|] queue'] execs']; simpl in *.
    + destruct Hinv as (pre & op & post & err & -> & -> & _).
      right. split; [eauto | split; [reflexivity | by exists pre]].
    + destruct Hinv as [-> ->]. destruct (Commit_err db); simpl.
      * right. split; [eauto | split; [reflexivity | by exists queue; rewrite app_nil_r]].
      * by left.
Qed.

(** X11. A flush never commits a record twice, never commits one that was
    not queued and never changes the order: the table followed by the queue
    after the call is a sublist of the table followed by the queue before
    it, the old rows are still the first rows, and a call that returns an
    error leaves the table as it was. *)
Theorem pushToDB_at_most_once (db : sqlDB) (rows queue : list queuedOp) :
  let r := pushToDB db rows queue in
  push_rows r ++ push_queue r `sublist_of` rows ++ queue ∧
  rows `prefix_of` push_rows r ∧
  (is_Some (push_err r) → push_rows r = rows).
Proof.
  cbv zeta.
  destruct (pushToDB_cases db rows queue) as [(Herr & -> & ->) | (Herr & -> & Hsuf)].
  - rewrite app_nil_r. split; [reflexivity|]. split; [by apply prefix_app_r|].
    rewrite Herr. by intros [? ?].
  - split; [|split; [reflexivity | done]].
    apply sublist_app; [reflexivity | by apply suffix_sublist_of].
Qed.

(** X12. The same over any run of flush turns with no sampling in between:
    the table only grows at its end, and table and queue together never hold
    more than they did, in the order they had. *)
Theorem flusherTurns_at_most_once (dbs : list sqlDB) (rows queue : list queuedOp) :
  rows `prefix_of` (flusherTurns dbs rows queue).1 ∧
  (flusherTurns dbs rows queue).1 ++ (flusherTurns dbs rows queue).2
    `sublist_of` rows ++ queue.
Proof.
  revert rows queue. induction dbs as [|db dbs IH]; intros rows queue.
  - split; reflexivity.
  - unfold flusherTurns in *. cbn [foldl].
    destruct (IH (push_rows (pushToDB db rows queue)) (push_queue (pushToDB db rows queue)))
      as [Hpre Hsub].
    destruct (pushToDB_cases db rows queue) as [(_ & Hr & Hq) | (_ & Hr & Hq)].
    + rewrite Hr, Hq in *. split.
      * etrans; [|exact Hpre]. by apply prefix_app_r.
      * by rewrite app_nil_r in Hsub.
    + rewrite Hr in *. split; [exact Hpre|].
      etrans; [exact Hsub|]. apply sublist_app; [reflexivity | by apply suffix_sublist_of].
Qed.

(** X15. When every insert succeeds and the commit fails, the call returns
    the commit error wrapped, the table is as it was, and the queue is empty:
    the whole batch is gone. *)
Theorem pushToDB_commit_failure
    (db : sqlDB) (rows queue : list queuedOp) (err : error) :
  Begin_err db = None → (∀ n op, Exec_err db n op = None) → Commit_err db = Some err →
  pushToDB db rows queue =
    {| push_err := Some (fmt_Errorf "failed to commit db txn: %w" err);
       push_queue := []; push_rows := rows; push_execs := queue |}.
Proof.
  intros Hbegin Hexec Hcommit. unfold pushToDB. rewrite Hbegin.
  pose proof (execLoop_inv db queue []) as Hinv.
  destruct (execLoop db [] queue) as [[[e|] queue'] execs']; simpl in *.
  - destruct Hinv as (pre & op & post & e' & _ & _ & _ & Herr & _).
    rewrite Hexec in Herr. discriminate.
  - destruct Hinv as [-> ->]. by rewrite Hcommit.
Qed.

(** X16. When the transaction cannot be opened nothing is sent to the
    database and neither the queue nor the table changes; and with an empty
    queue no statement is sent whatever the database answers. *)
Theorem pushToDB_sends_nothing (db : sqlDB) (rows queue : list queuedOp) :
  (∀ err, Begin_err db = Some err →
     pushToDB db rows queue =
       {| push_err := Some (fmt_Errorf "failed to start db txn: %w" err);
          push_queue := queue; push_rows := rows; push_execs := [] |}) ∧
  push_execs (pushToDB db rows []) = [] ∧
  push_rows (pushToDB db rows []) = rows ∧
  push_queue (pushToDB db rows []) = [].
Proof.
  split.
  - intros err Hbegin. unfold pushToDB. by rewrite Hbegin.
  - unfold pushToDB. destruct (Begin_err db); simpl; [done|].
    destruct (Commit_err db); simpl; by rewrite ?app_nil_r.
Qed.

End FlusherMore.

(** ** Further properties of the stream reader *)

Section ReaderMore.
Context `{Extern}.
Context (nmea_Parse : string → result error Sentence).

(** The read loop ends with an error in hand, having read the answers of the
    connection in order. *)
Lemma readLoop_ends_in_error (reads : list readLine) (data : MifiNMEAData) :
  is_Some (readLoop nmea_Parse data reads).1.2 ∧
  (readLoop nmea_Parse data reads).2 `suffix_of` reads.
Proof.
  revert data. induction reads as [|[line|err] rest IH]; intros data; simpl.
  - split; [eauto | reflexivity].
  - case_bool_decide.
    + destruct (IH data) as [? ?]. split; [done | by apply suffix_cons_r].
    + destruct (parseGPS nmea_Parse data _) as [data' [e|]]; simpl.
      * split; [eauto | by apply suffix_cons_r].
      * destruct (IH data') as [? ?]. split; [done | by apply suffix_cons_r].
  - destruct (errors_Is err io_EOF); simpl; (split; [eauto | by apply suffix_cons_r]).
Qed.

(** X17. [getGPS] never returns nil: whatever the connection does, the call
    ends with an error, and what it leaves unread is a tail of what the
    connection had to give (lines are taken in order, none is skipped over). *)
Theorem getGPS_never_returns_nil (data : MifiNMEAData) (res : response) :
  is_Some (getGPS nmea_Parse data res).1.2 ∧
  ∀ reads, res = Body reads → (getGPS nmea_Parse data res).2 `suffix_of` reads.
Proof.
  destruct res as [err|reads]; simpl.
  - split; [eauto | intros ? ?; discriminate].
  - destruct (readLoop_ends_in_error reads data) as [? ?].
    split; [done | by intros ? [= <-]].
Qed.

(** X18. Every turn of the reading goroutine, however the connection ends,
    leaves the store empty, logs the error [getGPS] returned and sleeps one
    minute. *)
Theorem readerTurn_always_clears (data : MifiNMEAData) (res : response) :
  turn_data (readerTurn nmea_Parse data res) = zeroData ∧
  is_Some (turn_logged (readerTurn nmea_Parse data res)) ∧
  turn_logged (readerTurn nmea_Parse data res) = (getGPS nmea_Parse data res).1.2 ∧
  turn_sleep (readerTurn nmea_Parse data res) = 60.
Proof.
  unfold readerTurn.
  assert (is_Some (getGPS nmea_Parse data res).1.2) as [err Herr].
  { destruct res as [e|reads]; simpl; [eauto|]. apply readLoop_ends_in_error. }
  destruct (getGPS nmea_Parse data res) as [[data' e] unread]. simpl in Herr. subst e.
  simpl. repeat split. eauto.
Qed.

Lemma trimLeft_nuls (n : nat) : trimLeft [x00] (replicate n x00) = [].
Proof. induction n as [|n IH]; [reflexivity | exact IH]. Qed.

(** X19. A line made of null bytes only, of any length (the empty line
    included), is skipped: the loop goes on with the next answer, the store
    untouched and [nmea.Parse] not called. *)
Theorem nul_padding_skipped (n : nat) (data : MifiNMEAData) (rest : list readLine) :
  readLoop nmea_Parse data (Line (replicate n x00) :: rest) = readLoop nmea_Parse data rest.
Proof.
  cbn [readLoop]. unfold bytes_Trim. rewrite trimLeft_nuls. reflexivity.
Qed.

(** A line that decodes to a stored sentence is accepted. *)
Lemma parseGPS_ok (data : MifiNMEAData) (line : list byte) :
  (∃ s, decoded nmea_Parse line = Some s ∧ supported s = true) →
  (parseGPS nmea_Parse data line).2 = None.
Proof.
  unfold parseGPS, decoded. intros (s & Hs & Hsup).
  destruct (nmea_Parse _) as [s'|e]; [|discriminate].
  injection Hs as ->. by destruct s.
Qed.

(** X20. [parseGPS] returns nil exactly for the lines that decode to one of
    the five sentences it stores; for every other line the store is left as
    it was. *)
Theorem parseGPS_accepts_iff_supported (data : MifiNMEAData) (line : list byte) :
  ((parseGPS nmea_Parse data line).2 = None ↔
     ∃ s, decoded nmea_Parse line = Some s ∧ supported s = true) ∧
  (is_Some (parseGPS nmea_Parse data line).2 → (parseGPS nmea_Parse data line).1 = data).
Proof.
  unfold parseGPS, decoded.
  destruct (nmea_Parse _) as [[m|m|m|m|m|t]|e]; simpl;
    (split; [split; [intros Hnil; try discriminate; eauto
                    | intros (s & Hs & Hsup); try discriminate;
                      try (injection Hs as <-; discriminate); reflexivity]
            | intros [e' He']; try discriminate; reflexivity]).
Qed.

(** X21. Handing the same line to [parseGPS] twice in a row gives the store
    and the answer of handing it over once. *)
Theorem parseGPS_idempotent (data : MifiNMEAData) (line : list byte) :
  parseGPS nmea_Parse (parseGPS nmea_Parse data line).1 line = parseGPS nmea_Parse data line.
Proof.
  unfold parseGPS. destruct (nmea_Parse _) as [[m|m|m|m|m|t]|e]; reflexivity.
Qed.

(** X22. Two lines that are not stored in the same field can arrive in
    either order: the store ends up the same. *)
Theorem parseGPS_commutes_across_fields (data : MifiNMEAData) (l1 l2 : list byte) :
  (∀ s1 s2, decoded nmea_Parse l1 = Some s1 → decoded nmea_Parse l2 = Some s2 →
            sameField s1 s2 = false) →
  feed nmea_Parse data [l1; l2] = feed nmea_Parse data [l2; l1].
Proof.
  unfold feed, parseGPS, decoded. cbn [foldl]. intros Hfields.
  destruct (nmea_Parse (String.string_of_list_byte l1)) as [[m1|m1|m1|m1|m1|t1]|e1];
  destruct (nmea_Parse (String.string_of_list_byte l2)) as [[m2|m2|m2|m2|m2|t2]|e2];
    try reflexivity; specialize (Hfields _ _ eq_refl eq_refl); discriminate.
Qed.

(** X23. On a connection whose every line is either blank once trimmed or
    decodes to a stored sentence, [getGPS] reads to the end: nothing is left
    unread, the error is the end-of-connection one, and the store is what
    feeding the trimmed non-blank lines to [parseGPS] one by one gives. *)
Theorem getGPS_reads_good_stream (lines : list (list byte)) (data : MifiNMEAData) :
  Forall (λ l, blank l ∨ ∃ s, decoded nmea_Parse (payload l) = Some s ∧ supported s = true)
         lines →
  getGPS nmea_Parse data (Body (Line <$> lines)) =
    (feed nmea_Parse data (payload <$> filter (λ l, ¬ blank l) lines),
     Some (errors_New "reached end of connection to mifi"),
     []).
Proof.
  cbn [getGPS]. revert data.
  induction lines as [|l lines IH]; intros data Hall; [reflexivity|].
  apply Forall_cons in Hall as [Hl Hall].
  cbn [fmap list_fmap readLoop]. fold (payload l). fold (blank l).
  destruct (decide (blank l)) as [Hblank|Hblank].
  - rewrite bool_decide_eq_true_2 by exact Hblank.
    rewrite filter_cons_False by (intros Hn; by apply Hn). by apply IH.
  - rewrite bool_decide_eq_false_2 by exact Hblank.
    rewrite filter_cons_True by exact Hblank.
    destruct Hl as [?|(s & Hs & Hsup)]; [done|].
    assert ((parseGPS nmea_Parse data (payload l)).2 = None) as Hok.
    { apply parseGPS_ok. eauto. }
    destruct (parseGPS nmea_Parse data (payload l)) as [data' e] eqn:Hp.
    simpl in Hok. subst e.
    change (Line <$> lines) with (fmap (M := list) Line lines) in *.
    rewrite (IH data' Hall). unfold feed. cbn [fmap list_fmap foldl]. by rewrite Hp.
Qed.

End ReaderMore.

(** ** What the read loop cuts off a line *)

Section Trim.

Lemma nul_cut (b : byte) : existsb (Byte.eqb b) [x00] = true ↔ b = x00.
Proof.
  simpl. rewrite orb_false_r. split; [apply byte_dec_bl | apply byte_dec_lb].
Qed.

(** [trimLeft] takes null bytes off the front, and nothing else. *)
Lemma trimLeft_spec (s : list byte) :
  ∃ pre, s = pre ++ trimLeft [x00] s ∧ Forall (λ b, b = x00) pre ∧
         head (trimLeft [x00] s) ≠ Some x00.
Proof.
  induction s as [|b s (pre & Hs & Hpre & Hhead)].
  - exists []. by repeat split.
  - cbn [trimLeft]. destruct (existsb (Byte.eqb b) [x00]) eqn:Hb.
    + apply nul_cut in Hb. subst b.
      exists (x00 :: pre). split; [by rewrite Hs at 1|]. split; [by constructor | done].
    + exists []. split; [done|]. split; [constructor|]. simpl. intros [= ->].
      assert (existsb (Byte.eqb x00) [x00] = true) by (by apply nul_cut). congruence.
Qed.

Lemma trimLeft_id (s : list byte) : head s ≠ Some x00 → trimLeft [x00] s = s.
Proof.
  destruct s as [|b s]; [done|]. cbn [trimLeft head]. intros Hb.
  destruct (existsb (Byte.eqb b) [x00]) eqn:Hcut; [|done].
  apply nul_cut in Hcut. congruence.
Qed.

(** X24. What [getGPS] hands to [parseGPS] is the line without the null
    bytes at its two ends and with everything in between kept: it neither
    starts nor ends with a null byte, and trimming it again changes nothing. *)
Theorem payload_is_line_without_padding (line : list byte) :
  (∃ pre post, line = pre ++ payload line ++ post ∧
               Forall (λ b, b = x00) pre ∧ Forall (λ b, b = x00) post) ∧
  head (payload line) ≠ Some x00 ∧
  last (payload line) ≠ Some x00 ∧
  payload (payload line) = payload line.
Proof.
  unfold payload, bytes_Trim.
  destruct (trimLeft_spec line) as (pre & Hline & Hpre & Hhead).
  set (t := trimLeft [x00] line) in *.
  destruct (trimLeft_spec (reverse t)) as (post & Hrev & Hpost & Hhead').
  set (u := trimLeft [x00] (reverse t)) in *.
  assert (t = reverse u ++ reverse post) as Ht.
  { rewrite <- reverse_app, <- Hrev. by rewrite reverse_involutive. }
  assert (head (reverse u) ≠ Some x00) as Hfront.
  { destruct u as [|b u'] eqn:Hu; [done|].
    intros Hx. apply Hhead. rewrite Ht. rewrite <- Hu in *.
    destruct (reverse u) as [|c r]; [done|]. exact Hx. }
  assert (last (reverse u) ≠ Some x00) as Hback by (by rewrite last_reverse).
  repeat split.
  - exists pre, (reverse post). split; [by rewrite Hline, Ht|].
    split; [done|]. by apply Forall_reverse.
  - exact Hfront.
  - exact Hback.
  - rewrite (trimLeft_id (reverse u)) by exact Hfront.
    rewrite reverse_involutive.
    rewrite (trimLeft_id u); [done|]. by rewrite last_reverse in Hback.
Qed.

End Trim.

(** ** The first version against the second *)

Section Versions.
Context `{Extern}.
Context (nmea_Parse : string → result error Sentence).

(** X25. The first version's logger dereferences [data.GGA] without a check:
    with an RMC fragment whose date and time parse and no GGA fragment, the
    pass panics before any statement reaches the database; and without an
    RMC fragment it goes round again at once, without sleeping. *)
Theorem V1_logger_needs_GGA (data : MifiNMEAData) (now : time.Time)
    (Exec_err : queuedOp → option error) :
  (RMC data = None → V1.logPassOf data now Exec_err = V1.retry) ∧
  (∀ rmc t, RMC data = Some rmc →
            time.Parse (Date_String (RMC_Date rmc) +:+ "T" +:+ Time_String (RMC_Time rmc)) = Ok t →
            GGA data = None →
            V1.logPassOf data now Exec_err = V1.panic_nil).
Proof.
  unfold V1.logPassOf. split.
  - by intros ->.
  - intros rmc t -> -> ->. reflexivity.
Qed.

(** X26. The first version inserts a row exactly when the second version's
    [queueLocation] queues a record and the database accepts it, and the row
    is that record: the second version changed when the insert happens, not
    what is inserted. *)
Theorem V1_logs_what_queueLocation_queues (data : MifiNMEAData) (now : time.Time)
    (Exec_err : queuedOp → option error) (op : queuedOp) :
  V1.logPassOf data now Exec_err = V1.logged op (15 * 60) ↔
  queueLocation data now [] = (None, [op]) ∧ Exec_err op = None.
Proof.
  unfold V1.logPassOf, queueLocation.
  destruct (RMC data) as [rmc|]; [|split; [discriminate | intros [? _]; discriminate]].
  destruct (GGA data) as [gga|].
  - destruct (time.Parse _) as [t|e]; [|split; [discriminate | intros [? _]; discriminate]].
    rewrite retention_slice_id. cbn [app].
    split.
    + destruct (Exec_err _) eqn:Hexec; [discriminate|]. intros [= <-]. by split.
    + intros [[= <-] ->]. reflexivity.
  - destruct (time.Parse _); (split; [discriminate | intros [? _]; discriminate]).
Qed.

(** X27. The first version's read loop steps over a sentence of a type it
    does not store, where the second ends the connection. *)
Theorem V1_readLoop_skips_unsupported
    (data : MifiNMEAData) (line : list byte) (rest : list readLine) (dataType : string) :
  ¬ blank line →
  decoded nmea_Parse (payload line) = Some (Other dataType) →
  V1.readLoop nmea_Parse data (Line line :: rest) = V1.readLoop nmea_Parse data rest ∧
  (readLoop nmea_Parse data (Line line :: rest)).2 = rest.
Proof.
  unfold blank, payload, decoded. intros Hblank Hdec.
  cbn [V1.readLoop readLoop]. rewrite !bool_decide_eq_false_2 by exact Hblank.
  unfold parseGPS.
  destruct (nmea_Parse _) as [s|e]; [|discriminate]. injection Hdec as ->. by split.
Qed.

(** X28. On a connection that never sends a sentence of a type the program
    does not store, the two versions of the read loop leave the same store
    and the same answers unread. *)
Theorem V1_readLoop_agrees (reads : list readLine) (data : MifiNMEAData) :
  (∀ line dataType, Line line ∈ reads →
                    decoded nmea_Parse (payload line) ≠ Some (Other dataType)) →
  (V1.readLoop nmea_Parse data reads).1.1 = (readLoop nmea_Parse data reads).1.1 ∧
  (V1.readLoop nmea_Parse data reads).2 = (readLoop nmea_Parse data reads).2.
Proof.
  revert data. induction reads as [|[line|err] rest IH]; intros data Hok.
  - by split.
  - assert (∀ line' t, Line line' ∈ rest →
                       decoded nmea_Parse (payload line') ≠ Some (Other t)) as Hrest.
    { intros line' t Hin. apply Hok. by right. }
    specialize (Hok line) as Hline. unfold decoded, payload in Hline.
    cbn [V1.readLoop readLoop].
    destruct (decide (blank line)) as [Hblank|Hblank]; unfold blank, payload in Hblank.
    { rewrite !bool_decide_eq_true_2 by exact Hblank. by apply IH. }
    rewrite !bool_decide_eq_false_2 by exact Hblank.
    unfold parseGPS.
    destruct (nmea_Parse _) as [[m|m|m|m|m|t]|e]; try (by apply IH); [|by split].
    exfalso. apply (Hline t); [by left | reflexivity].
  - cbn [V1.readLoop readLoop]. by destruct (errors_Is err io_EOF).
Qed.

End Versions.

(** ** The further properties at concrete inputs *)

Section MoreEvaluations.
#[local] Existing Instance Fixture.extern.
#[local] Existing Instance Fixture.conn.

Import Fixture.

(** Witness of X1: the device holds six bytes; the second [Read], into four
    bytes, gets the first four of them. *)
Lemma Read_second_is_connection_first_witness :
  Read (Read {| Conn := bytes "$GPRMC"; haveReadAny := false |} (replicate 16 x00)).1.1.1
       (replicate 4 x00) =
    ({| Conn := bytes "MC"; haveReadAny := true |}, bytes "$GPR", 4, None).
Proof.
  exact (Read_second_is_connection_first
           {| Conn := bytes "$GPRMC"; haveReadAny := false |}
           (replicate 16 x00) (replicate 4 x00) eq_refl).
Defined.

(** Witness of X3: an 80-byte buffer keeps its last eleven bytes. *)
Lemma Read_first_buffer_witness :
  (Read {| Conn := bytes "$GPRMC"; haveReadAny := false |} (replicate 80 x01)).1.1.2 =
    response_preamble ++ replicate 11 x01 ∧
  length (Read {| Conn := bytes "$GPRMC"; haveReadAny := false |} (replicate 80 x01)).1.1.2
    = 80%nat.
Proof.
  exact (Read_first_buffer
           {| Conn := bytes "$GPRMC"; haveReadAny := false |} (replicate 80 x01) eq_refl).
Defined.

(** Witness of X7: 15/06/24 and 10:30:00.00. *)
Lemma queueLocation_two_digit_stamp_witness :
  queueLocation bothFragments (clock 7) [] = (None, [record 7]).
Proof.
  apply (queueLocation_two_digit_stamp bothFragments rmc gga 15 6 24 10 30 0 0 ".00"
           (clock 7) []); try reflexivity; try lia.
  split; [lia | vm_compute; discriminate].
Defined.

(** Witness of X8: 31/02/24. *)
Lemma queueLocation_refuses_impossible_day_witness :
  queueLocation feb31 (clock 7) [record 0] =
    (Some (fmt_Errorf "failed to parse RMC date time: %w"
             (time_ParseError (time.outOfRange "day"))),
     [record 0]).
Proof.
  apply (queueLocation_refuses_impossible_day feb31 rmcFeb31 gga 31 2 24 10 30 0 0 ".00"
           (clock 7) [record 0]); try reflexivity; try lia.
  right. vm_compute. reflexivity.
Defined.



(** Witness of X13: three records behind one row. *)
Lemma pushToDB_healthy_witness :
  pushToDB healthy [record 0] (record <$> [1; 2; 3]) =
    {| push_err := None; push_queue := [];
       push_rows := record <$> [0; 1; 2; 3]; push_execs := record <$> [1; 2; 3] |}.
Proof.
  exact (pushToDB_healthy healthy [record 0] (record <$> [1; 2; 3])
           eq_refl (λ _ _, eq_refl) eq_refl).
Defined.

(** Witness of X14: the third of five inserts is refused. *)
Lemma pushToDB_refused_witness :
  pushToDB (failsAt 2) [record 0] (record <$> [1; 2; 3; 4; 5]) =
    {| push_err := Some (fmt_Errorf "failed to insert to DB: %w" (errors_New "pq: connection lost"));
       push_queue := record <$> [3; 4; 5];
       push_rows := [record 0];
       push_execs := record <$> [1; 2; 3] |}.
Proof.
  assert (∀ (i : nat) op', [record 1; record 2] !! i = Some op' →
                           Exec_err (failsAt 2) i op' = None) as Hpre.
  { intros [|[|i]] op' Hi; [reflexivity | reflexivity | discriminate Hi]. }
  exact (pushToDB_refused (failsAt 2) [record 0] [record 1; record 2] [record 4; record 5]
           (record 3) (errors_New "pq: connection lost") eq_refl Hpre eq_refl).
Defined.

(** Witness of X15: two records, a commit that fails. *)
Lemma pushToDB_commit_failure_witness :
  pushToDB commitFails [record 0] (record <$> [1; 2]) =
    {| push_err := Some (fmt_Errorf "failed to commit db txn: %w" (errors_New "pq: connection lost"));
       push_queue := []; push_rows := [record 0]; push_execs := record <$> [1; 2] |}.
Proof.
  exact (pushToDB_commit_failure commitFails [record 0] (record <$> [1; 2])
           (errors_New "pq: connection lost") eq_refl (λ _ _, eq_refl) eq_refl).
Defined.

(** Witness of X22: an RMC line and a GGA line. *)
Lemma parseGPS_commutes_across_fields_witness :
  feed Parse geometryOnly [bytes "$GPRMC"; bytes "$GPGGA"] =
  feed Parse geometryOnly [bytes "$GPGGA"; bytes "$GPRMC"].
Proof.
  apply (parseGPS_commutes_across_fields Parse geometryOnly (bytes "$GPRMC") (bytes "$GPGGA")).
  intros s1 s2 H1 H2.
  change (Some (TypeRMC rmc) = Some s1) in H1. change (Some (TypeGGA gga) = Some s2) in H2.
  injection H1 as <-. injection H2 as <-. reflexivity.
Defined.

(** Witness of X23: a padded RMC line, a line of padding, a GGA line. *)
Lemma getGPS_reads_good_stream_witness :
  getGPS Parse zeroData
    (Body [Line (x00 :: bytes "$GPRMC" ++ [x00; x00]); Line [x00; x00]; Line (bytes "$GPGGA")]) =
    (bothFragments, Some (errors_New "reached end of connection to mifi"), []).
Proof.
  apply (getGPS_reads_good_stream Parse
           [x00 :: bytes "$GPRMC" ++ [x00; x00]; [x00; x00]; bytes "$GPGGA"] zeroData).
  constructor; [|constructor; [|constructor; [|constructor]]].
  - right. exists (TypeRMC rmc). split; reflexivity.
  - left. reflexivity.
  - right. exists (TypeGGA gga). split; reflexivity.
Defined.

(** Witness of X27: a GLL line. *)
Lemma V1_readLoop_skips_unsupported_witness :
  V1.readLoop Parse zeroData [Line (bytes "$GPGLL"); Line (bytes "$GPGGA")] =
    V1.readLoop Parse zeroData [Line (bytes "$GPGGA")] ∧
  (readLoop Parse zeroData [Line (bytes "$GPGLL"); Line (bytes "$GPGGA")]).2 =
    [Line (bytes "$GPGGA")].
Proof.
  apply (V1_readLoop_skips_unsupported Parse zeroData (bytes "$GPGLL")
           [Line (bytes "$GPGGA")] "GLL").
  - intros Hblank. discriminate Hblank.
  - reflexivity.
Defined.

(** Witness of X28: an RMC line, a line that is no sentence, a GGA line. *)
Lemma V1_readLoop_agrees_witness :
  let reads := [Line (bytes "$GPRMC"); Line (bytes "garbage"); Line (bytes "$GPGGA")] in
  (V1.readLoop Parse zeroData reads).1.1 = (readLoop Parse zeroData reads).1.1 ∧
  (V1.readLoop Parse zeroData reads).2 = (readLoop Parse zeroData reads).2.
Proof.
  intros reads. apply (V1_readLoop_agrees Parse reads zeroData).
  intros line t Hin. unfold reads in Hin.
  apply elem_of_cons in Hin as [[= ->]|Hin]; [discriminate|].
  apply elem_of_cons in Hin as [[= ->]|Hin]; [discriminate|].
  apply elem_of_cons in Hin as [[= ->]|Hin]; [discriminate|].
  by apply elem_of_nil in Hin.
Defined.

(** Witness of X29: five cycles on a queue of one. *)
Lemma sample_length_witness :
  length (sample bothFragments (clock <$> seqZ 0 5) [record 0]) = 6%nat.
Proof.
  exact (sample_length bothFragments rmc gga (time.Date 2024 6 15 10 30 0 0)
           (clock <$> seqZ 0 5) [record 0] eq_refl eq_refl eq_refl).
Defined.

End MoreEvaluations.
